(** * Adaptive batch task manager of the AI routes (BatchTaskManager)

    Shallow embedding of the class [BatchTaskManager] of the AI routes
    module: the task record, [adjustConcurrency], [calculateDelay],
    [processCardWithRetry] with [isRateLimitError], the loop of [runTask],
    [start], [stop] and [getStatus], and the computation of the base delay
    from the configured [requestDelay]. *)

From Stdlib Require Import List String Ascii ZArith QArith Qminmax Lia.
Import ListNotations.
Open Scope string_scope.

(** ** Data model *)

(** An entry of [task.errors]. *)
Record ErrEntry := mkErr {
  e_cardId : Z;
  e_cardTitle : string;
  e_error : string;
  e_time : Z;
  e_isWarning : bool
}.

(** The task record created by [start]. [startTime] and the clock are
    integers (milliseconds); [types] and [strategy] are kept opaque. *)
Record Task := mkTask {
  running : bool;
  types : list string;
  current : nat;
  total : nat;
  successCount : nat;
  failCount : nat;
  currentCard : string;
  startTime : Z;
  errors : list ErrEntry;
  concurrency : nat;
  isRateLimited : bool;
  consecutiveSuccesses : nat;
  rateLimitCount : nat
}.

(** Constructor fields of [BatchTaskManager]. *)
Definition minConcurrency : nat := 1.
Definition maxConcurrency : nat := 5.
Definition initialConcurrency : nat := 3.

(** The record literal of [start]. *)
Definition new_task (types : list string) (total : nat) (now : Z) : Task :=
  {| running := true; types := types; current := 0; total := total;
     successCount := 0; failCount := 0; currentCard := "准备启动...";
     startTime := now; errors := [];
     concurrency := initialConcurrency; isRateLimited := false;
     consecutiveSuccesses := 0; rateLimitCount := 0 |}.

(** Field updates used by the methods below. *)
Definition set_running (b : bool) (t : Task) : Task :=
  {| running := b; types := types t; current := current t; total := total t;
     successCount := successCount t; failCount := failCount t;
     currentCard := currentCard t; startTime := startTime t;
     errors := errors t; concurrency := concurrency t;
     isRateLimited := isRateLimited t;
     consecutiveSuccesses := consecutiveSuccesses t;
     rateLimitCount := rateLimitCount t |}.

Definition set_currentCard (s : string) (t : Task) : Task :=
  {| running := running t; types := types t; current := current t; total := total t;
     successCount := successCount t; failCount := failCount t;
     currentCard := s; startTime := startTime t;
     errors := errors t; concurrency := concurrency t;
     isRateLimited := isRateLimited t;
     consecutiveSuccesses := consecutiveSuccesses t;
     rateLimitCount := rateLimitCount t |}.

Definition set_current (n : nat) (t : Task) : Task :=
  {| running := running t; types := types t; current := n; total := total t;
     successCount := successCount t; failCount := failCount t;
     currentCard := currentCard t; startTime := startTime t;
     errors := errors t; concurrency := concurrency t;
     isRateLimited := isRateLimited t;
     consecutiveSuccesses := consecutiveSuccesses t;
     rateLimitCount := rateLimitCount t |}.

(** [this.task.errors.push(e)]. *)
Definition push_error (e : ErrEntry) (t : Task) : Task :=
  {| running := running t; types := types t; current := current t; total := total t;
     successCount := successCount t; failCount := failCount t;
     currentCard := currentCard t; startTime := startTime t;
     errors := errors t ++ [e]; concurrency := concurrency t;
     isRateLimited := isRateLimited t;
     consecutiveSuccesses := consecutiveSuccesses t;
     rateLimitCount := rateLimitCount t |}.

Definition set_counts (cur succ fail : nat) (t : Task) : Task :=
  {| running := running t; types := types t; current := cur; total := total t;
     successCount := succ; failCount := fail;
     currentCard := currentCard t; startTime := startTime t;
     errors := errors t; concurrency := concurrency t;
     isRateLimited := isRateLimited t;
     consecutiveSuccesses := consecutiveSuccesses t;
     rateLimitCount := rateLimitCount t |}.

Definition set_adaptive (c : nat) (rl : bool) (streak rlc : nat) (t : Task) : Task :=
  {| running := running t; types := types t; current := current t; total := total t;
     successCount := successCount t; failCount := failCount t;
     currentCard := currentCard t; startTime := startTime t;
     errors := errors t; concurrency := c;
     isRateLimited := rl;
     consecutiveSuccesses := streak;
     rateLimitCount := rlc |}.

(** ** [adjustConcurrency] (the task is present in every call of [runTask]) *)
Definition adjustConcurrency (t : Task) (successCount failCount : nat)
    (hasRateLimit : bool) : Task :=
  if hasRateLimit then
    set_adaptive (Nat.max minConcurrency (Nat.div (concurrency t) 2))
      true 0%nat (S (rateLimitCount t)) t
  else if Nat.ltb 0 successCount && Nat.eqb failCount 0 then
    let streak := S (consecutiveSuccesses t) in
    if Nat.leb 3 streak && Nat.ltb (concurrency t) maxConcurrency then
      set_adaptive (Nat.min maxConcurrency (concurrency t + 1))
        false 0%nat (rateLimitCount t) t
    else set_adaptive (concurrency t) false streak (rateLimitCount t) t
  else
    set_adaptive (concurrency t) (isRateLimited t) 0%nat (rateLimitCount t) t.

(** ** [calculateDelay]

    JavaScript numbers are modelled by rationals: [baseDelay / 2] is an
    exact division. [Math.max] and [Math.min] are written out. *)
Definition js_max (a b : Q) : Q := if Qle_bool b a then a else b.
Definition js_min (a b : Q) : Q := if Qle_bool a b then a else b.

Definition calculateDelay (task : option Task) (baseDelay : Z)
    (hasRateLimit : bool) : Q :=
  match task with
  | None => inject_Z baseDelay
  | Some t =>
      if hasRateLimit then
        let multiplier := Z.pow 2 (Z.of_nat (Nat.min (rateLimitCount t) 4)) in
        js_min (inject_Z (baseDelay * multiplier)) (inject_Z 30000)
      else if Nat.eqb (concurrency t) 1 then inject_Z baseDelay
      else js_max (inject_Z 200) (inject_Z baseDelay / inject_Z 2)
  end.

(** ** [isRateLimitError] and [processCardWithRetry] *)

(** [s.includes(sub)]. *)
Fixpoint includes (sub s : string) : bool :=
  if String.prefix sub s then true
  else match s with
       | EmptyString => false
       | String _ rest => includes sub rest
       end.

(** A thrown error value: [message], [status] and [statusCode], each possibly
    undefined. *)
Record JsError := mkJsError {
  message : option string;
  status : option Z;
  statusCode : option Z
}.

Definition isRateLimitError (error : JsError) : bool :=
  let msg := match message error with Some m => m | None => "" end in
  (* [error.status || error.statusCode]: 0 and undefined are falsy *)
  let st := match status error with
            | Some s => if Z.eqb s 0 then statusCode error else Some s
            | None => statusCode error
            end in
  match st with Some s => Z.eqb s 429 | None => false end
  || includes "429" msg
  || includes "rate limit" msg
  || includes "Rate limit" msg
  || includes "too many requests" msg
  || includes "Too Many Requests" msg
  || includes "quota exceeded" msg
  || includes "请求过于频繁" msg.

(** The settlement of one call of [generateCardFields]: its result
    ([updated], [partialError]) or the error it throws. *)
Inductive GenOutcome :=
| GenOk (updated : bool) (partialError : option string)
| GenErr (e : JsError).

(** The object returned by [processCardWithRetry]. *)
Record CardResult := mkCardResult {
  success : bool;
  r_updated : option bool;
  rateLimited : bool;
  r_error : option string;
  r_partialError : option string
}.

Definition maxRetries : nat := 2.

(** [processCardWithRetry config card types existingTags strategy retryCount]:
    the successive calls of [generateCardFields] settle as [outs]; the result
    comes with the durations (ms) of the backoff sleeps, in order. [None]
    when [outs] runs out before the method returns. *)
Fixpoint processCardWithRetry (retryCount : nat) (outs : list GenOutcome)
    : option (CardResult * list Z) :=
  match outs with
  | [] => None
  | GenOk u p :: _ =>
      Some ({| success := true; r_updated := Some u; rateLimited := false;
               r_error := None; r_partialError := p |}, [])
  | GenErr e :: rest =>
      let isRateLimit := isRateLimitError e in
      if isRateLimit && Nat.ltb retryCount maxRetries then
        let retryDelay := (2 ^ Z.of_nat (retryCount + 1) * 1000)%Z in
        match processCardWithRetry (S retryCount) rest with
        | Some (r, ds) => Some (r, retryDelay :: ds)
        | None => None
        end
      else
        Some ({| success := false; r_updated := None; rateLimited := isRateLimit;
                 r_error := message e; r_partialError := None |}, [])
  end.

(** ** Applying the settled results of a window (loop body of [runTask]) *)

(** A card: [id], [title] (possibly undefined) and [url]. *)
Record Card := mkCard { id : Z; title : option string; url : string }.

(** One entry of [Promise.allSettled]. *)
Inductive Settled :=
| Fulfilled (v : CardResult)
| Rejected (reason_message : option string).

(** A string-valued JavaScript condition: defined and non-empty. *)
Definition truthy (o : option string) : option string :=
  match o with
  | Some s => if String.eqb s "" then None else Some s
  | None => None
  end.

(** [card.title || card.url] *)
Definition title_or_url (c : Card) : string :=
  match truthy (title c) with Some t => t | None => url c end.

(** The accumulator of the result loop: the task, [batchSuccess],
    [batchFail] and [hasRateLimit]. *)
Definition apply_one (now : Z) (acc : Task * nat * nat * bool)
    (cr : Card * Settled) : Task * nat * nat * bool :=
  let '(t, bs, bf, hrl) := acc in
  let '(card, result) := cr in
  let t := set_current (S (current t)) t in
  let entry msg warn :=
    {| e_cardId := id card; e_cardTitle := title_or_url card; e_error := msg;
       e_time := now; e_isWarning := warn |} in
  let fail_task t := set_counts (current t) (successCount t) (S (failCount t)) t in
  match result with
  | Fulfilled v =>
      if success v then
        let t := set_counts (current t) (S (successCount t)) (failCount t) t in
        let t := match truthy (r_partialError v) with
                 | Some pe => push_error (entry ("部分成功: " ++ pe) true) t
                 | None => t
                 end in
        (t, S bs, bf, hrl)
      else if rateLimited v then
        (push_error (entry "API 请求受限 (Rate Limit)，请稍后再试或降低并发数" false)
           (fail_task t), bs, S bf, true)
      else
        let t := fail_task t in
        let t := match truthy (r_error v) with
                 | Some m => push_error (entry m false) t
                 | None => t
                 end in
        (t, bs, S bf, hrl)
  | Rejected m =>
      let msg := match truthy m with Some s => s | None => "未知错误" end in
      (push_error (entry msg false) (fail_task t), bs, S bf, hrl)
  end.

Definition apply_results (now : Z) (t : Task) (batch : list Card)
    (results : list Settled) : Task * nat * nat * bool :=
  fold_left (apply_one now) (combine batch results) (t, 0%nat, 0%nat, false).

(** ** [getStatus] *)

(** [arr.slice(-n)]: the last [n] elements. *)
Definition slice_last (n : nat) {A} (l : list A) : list A :=
  skipn (List.length l - n) l.

Record Snapshot := mkSnapshot {
  s_running : bool;
  s_types : list string;
  s_current : nat;
  s_total : nat;
  s_successCount : nat;
  s_failCount : nat;
  s_currentCard : string;
  s_startTime : Z;
  s_concurrency : nat;
  s_isRateLimited : bool;
  s_errors : list ErrEntry
}.

Definition snapshot (t : Task) : Snapshot :=
  {| s_running := running t; s_types := types t; s_current := current t;
     s_total := total t; s_successCount := successCount t;
     s_failCount := failCount t; s_currentCard := currentCard t;
     s_startTime := startTime t; s_concurrency := concurrency t;
     s_isRateLimited := isRateLimited t;
     s_errors := slice_last 100 (errors t) |}.

(** [{ running: false }] or the snapshot of the task. *)
Inductive Status :=
| NoTask
| TaskStatus (s : Snapshot).

Definition getStatus (task : option Task) : Status :=
  match task with
  | None => NoTask
  | Some t => TaskStatus (snapshot t)
  end.

(** ** The manager: [task], [abortController] and [start] / [stop]

    [m_abort] is [None] while [abortController] is [null], otherwise
    [Some aborted]. [m_inflight] records that the promise of the last
    [runTask] launched by [start] has not settled yet: the task is then in
    Running or, after [stop], in the spec's Stopping state. *)
Record Manager := mkManager {
  m_task : option Task;
  m_abort : option bool;
  m_inflight : bool
}.

Definition manager0 : Manager :=
  {| m_task := None; m_abort := None; m_inflight := false |}.

Definition isRunning (m : Manager) : bool :=
  match m_task m with Some t => running t | None => false end.

(** What [stop] does to the task record. *)
Definition stop_task (t : Task) : Task :=
  set_currentCard "已停止" (set_running false t).

Definition stop (m : Manager) : Manager :=
  {| m_task := option_map stop_task (m_task m);
     m_abort := match m_abort m with Some _ => Some true | None => None end;
     m_inflight := m_inflight m |}.

Inductive StartError := AlreadyRunning (msg : string).

(** [start(config, cards, types)]: on success the answer is [{ total }] and
    the task and a fresh [AbortController] are installed, with [runTask]
    launched; otherwise the (rejected) error and the manager unchanged. *)
Definition start (m : Manager) (cards : list Card) (types : list string)
    (now : Z) : (StartError + nat) * Manager :=
  if isRunning m then (inl (AlreadyRunning "已有任务在运行中"), m)
  else
    (inr (List.length cards),
     {| m_task := Some (new_task types (List.length cards) now);
        m_abort := Some false;
        m_inflight := true |}).

(** ** The loop of [runTask]

    The environment of one run: the cards, the settled result of
    [processCardWithRetry] for each card, the points where [stop] is called
    (while window [k] is in flight, or during the sleep that follows window
    [k]), the clock and the base delay computed at the start of the run.
    [extractDomain] parses a URL and is left abstract. *)

(** What [runTask] publishes: snapshots ([emitUpdate]), window launches
    (the number of cards given to [Promise.allSettled]) and sleeps. *)
Inductive Event :=
| Update (s : Status)
| Launch (n : nat)
| Sleep (ms : Q).

Section RunTask.

Variable extractDomain : string -> string.
Variable cards : list Card.
Variable proc : Card -> Settled.
Variable stop_in_window : nat -> bool.
Variable stop_in_sleep : nat -> bool.
Variable now : Z.
Variable baseDelay : Z.

Definition label (batch : list Card) : string :=
  String.concat ", "
    (map (fun c => match truthy (title c) with
                   | Some t => t
                   | None => extractDomain (url c)
                   end) batch).

(** [stop] called at some point of the run: the abort flag is raised and
    the task record is updated; [stop] publishes a snapshot. *)
Definition stop_point (b : bool) (t : Task) (aborted : bool)
    : Task * bool * list Event :=
  if b then (stop_task t, true, [Update (getStatus (Some (stop_task t)))])
  else (t, aborted, []).

(** One iteration of [while (index < totalCards)], window number [k]. The
    answer is the task, the abort flag, [index] and the events, in order. *)
Fixpoint loop (fuel k : nat) (t : Task) (aborted : bool) (index : nat)
    : Task * bool * nat * list Event :=
  match fuel with
  | O => (t, aborted, index, [])
  | S fuel' =>
      if Nat.ltb index (List.length cards) then
        if aborted || negb (running t) then (t, aborted, index, [])
        else
          let currentConcurrency := concurrency t in
          let batch := firstn currentConcurrency (skipn index cards) in
          let t1 := set_currentCard (label batch) t in
          let '(t2, ab2, ev_stop) := stop_point (stop_in_window k) t1 aborted in
          let '(t3, batchSuccess, batchFail, hasRateLimit) :=
            apply_results now t2 batch (map proc batch) in
          let t4 := adjustConcurrency t3 batchSuccess batchFail hasRateLimit in
          let index' := (index + List.length batch)%nat in
          let '(t5, ab5, ev_sleep) :=
            if Nat.ltb index' (List.length cards) && running t4 then
              let '(t5, ab5, ev) := stop_point (stop_in_sleep k) t4 ab2 in
              (t5, ab5,
               Sleep (calculateDelay (Some t4) baseDelay hasRateLimit) :: ev)
            else (t4, ab2, []) in
          let '(t', ab', i', evs) := loop fuel' (S k) t5 ab5 index' in
          (t', ab', i',
           Update (getStatus (Some t1)) :: Launch (List.length batch) ::
           (ev_stop ++ Update (getStatus (Some t4)) :: ev_sleep ++ evs)%list)
      else (t, aborted, index, [])
  end.

(** The finalisation of [runTask] ([finally]): grace delay, then the task
    is stopped and [current] forced to [total]. *)
Definition finalize (t : Task) : Task :=
  set_current (total t) (set_currentCard "" (set_running false t)).

(** [runTask] from the task installed by [start] and the state of the abort
    flag: the final task, the final [index] and the published events. *)
Definition runTask (t0 : Task) (aborted0 : bool) : Task * nat * list Event :=
  let '(t, _, index, evs) := loop (S (List.length cards)) 0 t0 aborted0 0 in
  let tf := finalize t in
  (tf, index, (evs ++ [Sleep (inject_Z 500); Update (getStatus (Some tf))])%list).

End RunTask.

(** [runTask] with the reads that precede its loop ([db.getAllTagNames]
    when the types include [tags], then [db.getAIConfig]): [reads] is the
    base delay they yield, or the message of the error one of them throws.
    That error is caught by the [catch], which records a system entry;
    [finally] then ends the task as after the loop. *)
Definition runTask_reads (extractDomain : string -> string) (cards : list Card)
    (proc : Card -> Settled) (stop_in_window stop_in_sleep : nat -> bool) (now : Z)
    (reads : string + Z) (t0 : Task) (aborted0 : bool) : Task * nat * list Event :=
  match reads with
  | inr baseDelay =>
      runTask extractDomain cards proc stop_in_window stop_in_sleep now baseDelay t0 aborted0
  | inl msg =>
      let t := push_error {| e_cardId := 0; e_cardTitle := "系统"; e_error := msg;
                             e_time := now; e_isWarning := false |} t0 in
      let tf := finalize t in
      (tf, 0%nat, [Sleep (inject_Z 500); Update (getStatus (Some tf))])
  end.

(** ** The loop of [runTask] on the shared manager

    The loop as written reads [this.task] and [this.abortController] anew
    at every access, not the record its run was started with. Here the
    whole manager is threaded through: [during k] is what other code
    (requests to [stop] and [start]) does to the manager while window [k] is
    awaited. Snapshots and sleeps are left out; the reads before the loop
    are taken to succeed. *)

(** [this.task.f = ...] when [this.task] is set. *)
Definition map_task (f : Task -> Task) (m : Manager) : Manager :=
  {| m_task := option_map f (m_task m); m_abort := m_abort m;
     m_inflight := m_inflight m |}.

(** [this.abortController?.signal.aborted] *)
Definition aborted_of (m : Manager) : bool :=
  match m_abort m with Some b => b | None => false end.

Fixpoint loop_shared (extractDomain : string -> string) (cards : list Card)
    (proc : Card -> Settled) (now : Z) (during : nat -> Manager -> Manager)
    (fuel k index : nat) (m : Manager) : Manager * nat :=
  match fuel with
  | O => (m, index)
  | S fuel' =>
      if Nat.ltb index (List.length cards) then
        match m_task m with
        | None => (m, index)
        | Some t =>
            if aborted_of m || negb (running t) then (m, index)
            else
              let batch := firstn (concurrency t) (skipn index cards) in
              let m1 := map_task (set_currentCard (label extractDomain batch)) m in
              let m2 := during k m1 in
              let m3 :=
                match m_task m2 with
                | Some t2 =>
                    let '(t3, batchSuccess, batchFail, hasRateLimit) :=
                      apply_results now t2 batch (map proc batch) in
                    map_task (fun _ => adjustConcurrency t3 batchSuccess batchFail hasRateLimit) m2
                | None => m2
                end in
              loop_shared extractDomain cards proc now during fuel' (S k)
                (index + List.length batch) m3
        end
      else (m, index)
  end.

(** The run, then [finally] on whatever [this.task] is at its end. *)
Definition runTask_shared (extractDomain : string -> string) (cards : list Card)
    (proc : Card -> Settled) (now : Z) (during : nat -> Manager -> Manager)
    (m0 : Manager) : Manager * nat :=
  let '(m, index) := loop_shared extractDomain cards proc now during
                       (S (List.length cards)) 0 0 m0 in
  (map_task finalize m, index).

(** ** The base delay: [Math.max(500, Math.min(10000, parseInt(rawConfig.requestDelay) || 1500))]

    [parseInt] without radix, on the string form of the value ([None]
    stands for [undefined], whose string form is ["undefined"]). Leading
    white space is the ASCII part of JavaScript's (tab, LF, VT, FF, CR,
    space). [None] is NaN. *)
Definition is_space (c : ascii) : bool :=
  let n := nat_of_ascii c in
  orb (Nat.eqb n 32) (andb (Nat.leb 9 n) (Nat.leb n 13)).

Fixpoint trim_start (s : string) : string :=
  match s with
  | String c r => if is_space c then trim_start r else s
  | EmptyString => s
  end.

Definition digit_val (radix : Z) (c : ascii) : option Z :=
  let n := Z.of_nat (nat_of_ascii c) in
  let d := if andb (Z.leb 48 n) (Z.leb n 57) then Some (n - 48)%Z
           else if andb (Z.leb 97 n) (Z.leb n 102) then Some (n - 87)%Z
           else if andb (Z.leb 65 n) (Z.leb n 70) then Some (n - 55)%Z
           else None in
  match d with Some v => if Z.ltb v radix then Some v else None | None => None end.

(** The longest prefix of digits; [acc] is [None] before the first one. *)
Fixpoint parse_digits (radix : Z) (s : string) (acc : option Z) : option Z :=
  match s with
  | String c r =>
      match digit_val radix c with
      | Some d =>
          parse_digits radix r
            (Some (match acc with Some a => a * radix + d | None => d end)%Z)
      | None => acc
      end
  | EmptyString => acc
  end.

Definition jsParseInt (s : string) : option Z :=
  let s := trim_start s in
  let '(sign, s) := match s with
                    | String "-" r => ((-1)%Z, r)
                    | String "+" r => (1%Z, r)
                    | _ => (1%Z, s)
                    end in
  let '(radix, s) := match s with
                     | String "0" (String "x" r) => (16%Z, r)
                     | String "0" (String "X" r) => (16%Z, r)
                     | _ => (10%Z, s)
                     end in
  option_map (fun v => (sign * v)%Z) (parse_digits radix s None).

Definition requestDelay_string (requestDelay : option string) : string :=
  match requestDelay with Some s => s | None => "undefined" end.

(** [x || 1500] on the result of [parseInt]: NaN, 0 and -0 are falsy. *)
Definition baseDelay_of (requestDelay : option string) : Z :=
  let parsed := match jsParseInt (requestDelay_string requestDelay) with
                | Some n => if Z.eqb n 0 then 1500%Z else n
                | None => 1500%Z
                end in
  Z.max 500 (Z.min 10000 parsed).

(** The spec's reading: the parsed value clamped into [500, 10000], 1500
    when the value is missing or unparsable. *)
Definition spec_baseDelay (requestDelay : option string) : Z :=
  match jsParseInt (requestDelay_string requestDelay) with
  | Some n => Z.max 500 (Z.min 10000 n)
  | None => 1500%Z
  end.

(** The spec's Delay Calculator, from its formulae. *)
Definition spec_delay (base : Z) (conc rateLimitEventCount : nat)
    (rateLimitedWindow : bool) : Q :=
  if rateLimitedWindow then
    Qmin (inject_Z (base * 2 ^ Z.of_nat (Nat.min rateLimitEventCount 4)))
      (inject_Z 30000)
  else if Nat.eqb conc 1 then inject_Z base
  else Qmax (inject_Z 200) (inject_Z base / inject_Z 2).

(** ** Reading a run *)

(** The sizes of the windows launched. *)
Fixpoint launches (evs : list Event) : list nat :=
  match evs with
  | Launch n :: r => n :: launches r
  | _ :: r => launches r
  | [] => []
  end.

(** The first snapshot published after each window is launched: its
    [concurrency] and [isRateLimited] (for runs without [stop], the
    snapshot taken once the window's results are applied). *)
Fixpoint first_update (l : list Event) : list (nat * bool) :=
  match l with
  | Update (TaskStatus s) :: _ => [(s_concurrency s, s_isRateLimited s)]
  | _ :: l' => first_update l'
  | [] => []
  end.

Fixpoint after_windows (evs : list Event) : list (nat * bool) :=
  match evs with
  | Launch _ :: r => (first_update r ++ after_windows r)%list
  | _ :: r => after_windows r
  | [] => []
  end.

(** The last snapshot published. *)
Definition final_status (evs : list Event) : option Snapshot :=
  match rev (filter (fun e => match e with Update (TaskStatus _) => true | _ => false end) evs) with
  | Update (TaskStatus s) :: _ => Some s
  | _ => None
  end.

(** ** Reachable task states

    Every mutation the class performs on [this.task]: the record created by
    [start], then the label update of a window, the application of one
    settled result, [adjustConcurrency], [stop], the finalisation and the
    system error entries of the [catch] handlers. *)
Inductive task_step : Task -> Task -> Prop :=
| step_label t l : task_step t (set_currentCard l t)
| step_apply now t bs bf hrl cr :
    task_step t (fst (fst (fst (apply_one now (t, bs, bf, hrl) cr))))
| step_adjust t s f h : task_step t (adjustConcurrency t s f h)
| step_stop t : task_step t (stop_task t)
| step_finalize t : task_step t (finalize t)
| step_catch t e : task_step t (push_error e t)
| step_start_catch t e : task_step t (push_error e (set_running false t)).

Inductive reachable : Task -> Prop :=
| reach_start tys n now : reachable (new_task tys n now)
| reach_step t t' : reachable t -> task_step t t' -> reachable t'.

(** ** Scenarios of the spec

    Ten cards; [ok_result] is what [processCardWithRetry] returns when the
    first call of [generateCardFields] succeeds. The base delay is the
    default 1500 ms; [extractDomain] is not reached (every card has a
    title). *)
Definition scenario_cards : list Card :=
  map (fun i => mkCard (Z.of_nat i) (Some "card") "https://example.com/") (seq 1 10).

Definition ok_result : CardResult :=
  {| success := true; r_updated := Some true; rateLimited := false;
     r_error := None; r_partialError := None |}.

Definition run_scenario (proc : Card -> Settled) (stop_in_window : nat -> bool)
    : Task * nat * list Event :=
  runTask (fun u => u) scenario_cards proc stop_in_window (fun _ => false)
    0 1500 (new_task ["name"] 10 0) false.

(** An error classified as a rate limit (HTTP 429). *)
Definition e429 : JsError :=
  {| message := Some "Request failed with status code 429"; status := Some 429%Z;
     statusCode := None |}.

(** Item 4 fails twice with [e429], then succeeds. *)
Definition retry_outcomes : list GenOutcome :=
  [GenErr e429; GenErr e429; GenOk true None].

Definition proc_retry (card : Card) : Settled :=
  if Z.eqb (id card) 4 then
    match processCardWithRetry 0 retry_outcomes with
    | Some (r, _) => Fulfilled r
    | None => Rejected None
    end
  else Fulfilled ok_result.

(** A task on which the errors [es] have been recorded, in order. *)
Definition task_with_errors (es : list ErrEntry) : Task :=
  fold_left (fun t e => push_error e t) es (new_task ["name"] 0 0).

Definition err_n (i : nat) : ErrEntry :=
  {| e_cardId := Z.of_nat i; e_cardTitle := "card"; e_error := "error";
     e_time := 0; e_isWarning := false |}.

(** A restart while the old run is still in flight. Run A is started on
    the ten scenario cards; while its first window is awaited, [stop] is
    called and then [start] for run B on four cards. B's own [runTask] is
    kept waiting at its reads (the db calls before its loop) for the whole
    of A's run, so that every change to B's record comes from A. *)
Definition cardsB : list Card := firstn 4 scenario_cards.

Definition manager_A : Manager := snd (start manager0 scenario_cards ["name"] 0).

Definition restart_during (k : nat) (m : Manager) : Manager :=
  if Nat.eqb k 0 then snd (start (stop m) cardsB ["name"] 5) else m.

(** The manager after A's first window, and after A's whole run. *)
Definition restart_first_window : Manager :=
  fst (loop_shared (fun u => u) scenario_cards (fun _ => Fulfilled ok_result) 0
         restart_during 1 0 0 manager_A).

Definition restart_run : Manager * nat :=
  runTask_shared (fun u => u) scenario_cards (fun _ => Fulfilled ok_result) 0
    restart_during manager_A.

(** Total, successes, progress and running flag of the installed task. *)
Definition task_summary (m : Manager) : option (nat * nat * nat * bool) :=
  option_map (fun t => (total t, successCount t, current t, running t)) (m_task m).

(** The task part of the accumulator of the result loop. *)
Definition acc_task (a : Task * nat * nat * bool) : Task := fst (fst (fst a)).

(** Projections of the answer of [loop]. *)
Definition loop_task (r : Task * bool * nat * list Event) : Task := fst (fst (fst r)).
Definition loop_aborted (r : Task * bool * nat * list Event) : bool := snd (fst (fst r)).
Definition loop_index (r : Task * bool * nat * list Event) : nat := snd (fst r).
Definition loop_events (r : Task * bool * nat * list Event) : list Event := snd r.

(** The result of [processCardWithRetry] for an item whose last attempt
    returns [updated] without partial error. *)
Definition success_result (u : bool) : CardResult :=
  {| success := true; r_updated := Some u; rateLimited := false;
     r_error := None; r_partialError := None |}.

(** The delay between cards of [autoGenerateForCards]:
    [Math.max(500, parseInt(rawConfig.requestDelay) || 1500)]. *)
Definition autoGenerate_delay (requestDelay : option string) : Z :=
  let parsed := match jsParseInt (requestDelay_string requestDelay) with
                | Some n => if Z.eqb n 0 then 1500%Z else n
                | None => 1500%Z
                end in
  Z.max 500 parsed.

(** ** [generateCardFields]

    The regular-expression checks [checkIsDirtyName] and [checkIsDirtyDesc]
    enter as their boolean results, and each AI round trip (prompt, [callAI],
    response cleaning, database write) as its outcome: the unified
    multi-field attempt ([UnifiedOutcome] below) returns or throws; the
    single-field call for a field either completes,
    telling whether it wrote a changed value, or throws an error. *)
Inductive FieldOutcome :=
| FieldOk (changed : bool)
| FieldErr (e : JsError).

(** [strategy.mode !== 'overwrite'] *)
Definition isFillMode (mode : option string) : bool :=
  match mode with Some m => negb (String.eqb m "overwrite") | None => true end.

(** Step 1: the fields that really need generating. *)
Definition neededTypes (fill dirtyName dirtyDesc : bool) (types : list string)
    : list string :=
  filter (fun ty => if String.eqb ty "name" then negb (fill && negb dirtyName)
                    else if String.eqb ty "description" then negb (fill && negb dirtyDesc)
                    else true) types.

(** The field names the per-field loop acts on; any other entry of
    [neededTypes] runs no branch. *)
Definition is_gen_field (ty : string) : bool :=
  String.eqb ty "name" || String.eqb ty "description" || String.eqb ty "tags".

(** [`${e.message}`]: an undefined message prints as ["undefined"]. *)
Definition message_text (e : JsError) : string :=
  match message e with Some m => m | None => "undefined" end.

(** Step 3: the per-field loop, with [updated] and [fieldErrors]
    ([{field, error}] pairs); [single] is [neededTypes.length === 1], in
    which case the error is rethrown ([inr]). *)
Fixpoint field_loop (single : bool) (outcome : string -> FieldOutcome)
    (tys : list string) (updated : bool) (fieldErrors : list (string * string))
    : (bool * list (string * string)) + JsError :=
  match tys with
  | [] => inl (updated, fieldErrors)
  | ty :: rest =>
      if is_gen_field ty then
        match outcome ty with
        | FieldOk changed => field_loop single outcome rest (updated || changed) fieldErrors
        | FieldErr e =>
            if single then inr e
            else field_loop single outcome rest updated
                   (fieldErrors ++ [(ty, message_text e)])%list
        end
      else field_loop single outcome rest updated fieldErrors
  end.

(** [fieldErrors.map(e => `${e.field}: ${e.error}`).join('; ')] *)
Definition combined_message (fieldErrors : list (string * string)) : string :=
  String.concat "; " (map (fun fe => fst fe ++ ": " ++ snd fe) fieldErrors).

(** [fieldErrors.map(e => `${e.field}失败`).join(', ')] *)
Definition partial_message (fieldErrors : list (string * string)) : string :=
  String.concat ", " (map (fun fe => fst fe ++ "失败") fieldErrors).

(** How the unified multi-field request (step 2) ended: it returned with its
    [updated], or it threw after [updated] had reached the given value
    (a database write may fail after an earlier one succeeded). *)
Inductive UnifiedOutcome :=
| UnifiedOk (updated : bool)
| UnifiedThrew (updatedSoFar : bool).

(** The settlement of [generateCardFields], in the form
    [processCardWithRetry] consumes. *)
Definition generateCardFields (mode : option string) (dirtyName dirtyDesc : bool)
    (types : list string) (unified : UnifiedOutcome) (outcome : string -> FieldOutcome)
    : GenOutcome :=
  let needed := neededTypes (isFillMode mode) dirtyName dirtyDesc types in
  match needed with
  | [] => GenOk false None
  | _ =>
      let start :=
        if Nat.ltb 1 (List.length needed) then
          match unified with
          | UnifiedOk u => inl u
          | UnifiedThrew u => inr u
          end
        else inr false in
      match start with
      | inl u => GenOk u None
      | inr updated0 =>
          match field_loop (Nat.eqb (List.length needed) 1) outcome needed updated0 [] with
          | inr e => GenErr e
          | inl (updated, []) => GenOk updated None
          | inl (updated, fieldErrors) =>
              if updated then GenOk updated (Some (partial_message fieldErrors))
              else GenErr (mkJsError (Some (combined_message fieldErrors)) None None)
          end
      end
  end.

(** Whether the per-field call of [ty] wrote a changed value / threw. *)
Definition field_changed (outcome : string -> FieldOutcome) (ty : string) : bool :=
  is_gen_field ty && match outcome ty with FieldOk c => c | FieldErr _ => false end.

Definition field_failed (outcome : string -> FieldOutcome) (ty : string) : bool :=
  is_gen_field ty && match outcome ty with FieldOk _ => false | FieldErr _ => true end.

(** The [{ field: type, error: e.message }] entry of a field. *)
Definition field_error (outcome : string -> FieldOutcome) (ty : string) : string * string :=
  (ty, match outcome ty with FieldErr e => message_text e | FieldOk _ => "" end).

(** ** [buildPromptWithStrategy]

    A chat message [{ role, content }]. *)
Record Msg := mkMsg { role : string; content : string }.

(** What [`${v}`] gives for the value [styleHints] inherits from
    [Object.prototype] under a key (Node): the native methods print as
    [function name() { [native code] }], [constructor] is [Object], and
    [__proto__] is [Object.prototype] itself. *)
Definition native_fn (name : string) : string :=
  "function " ++ name ++ "() { [native code] }".

Definition object_prototype_member (key : string) : option string :=
  if String.eqb key "constructor" then Some (native_fn "Object")
  else if String.eqb key "__proto__" then Some "[object Object]"
  else if existsb (String.eqb key)
            ["__defineGetter__"; "__defineSetter__"; "hasOwnProperty";
             "__lookupGetter__"; "__lookupSetter__"; "isPrototypeOf";
             "propertyIsEnumerable"; "toString"; "valueOf"; "toLocaleString"]
  then Some (native_fn key)
  else None.

(** [styleHints[style]], as a string when it is defined: the four own keys,
    then the members of [Object.prototype] (all of them truthy). *)
Definition styleHint (style : string) : option string :=
  if String.eqb style "concise" then Some "简洁"
  else if String.eqb style "professional" then Some "专业"
  else if String.eqb style "friendly" then Some "友好"
  else if String.eqb style "seo" then Some "SEO 优化"
  else object_prototype_member style.

(** [basePrompt[0].content += suffix] when [basePrompt[0]?.role === 'system']. *)
Definition append_system (suffix : string) (basePrompt : list Msg) : list Msg :=
  match basePrompt with
  | m :: rest =>
      if String.eqb (role m) "system" then mkMsg (role m) (content m ++ suffix) :: rest
      else basePrompt
  | [] => []
  end.

Definition buildPromptWithStrategy (basePrompt : list Msg) (style customPrompt : option string)
    : list Msg :=
  match truthy style with
  | None => basePrompt
  | Some s =>
      if String.eqb s "default" then basePrompt
      else
        let p1 := match styleHint s with
                  | Some h => append_system ("
风格要求：" ++ h) basePrompt
                  | None => basePrompt
                  end in
        match truthy customPrompt with
        | Some c => append_system ("
额外要求：" ++ c) p1
        | None => p1
        end
  end.

(** ** The [/batch-task/start] route

    The request body fields [cardIds], [type], [mode], [types] and
    [strategy.mode]; the cards come from the database by one of three
    queries. Every error thrown inside the handler's [try] is answered with
    500 and the error's message. *)
Inductive CardSource :=
| ByIds (ids : list Z)
| AllCards
| NeedingAI (which : string).

Definition all_types : list string := ["name"; "description"; "tags"].

(** The task types, strategy mode and card query chosen by the handler, or
    [None] for the [参数不完整] answer. *)
Definition resolveStart (cardIds : option (list Z)) (type mode : option string)
    (types : option (list string)) (strategyMode : option string)
    : option (list string * string * CardSource) :=
  match cardIds with
  | Some ((_ :: _) as ids) =>
      Some (match types with Some ts => ts | None => all_types end,
            match truthy strategyMode with Some md => md | None => "fill" end,
            ByIds ids)
  | _ =>
      match truthy type, truthy mode with
      | Some ty, Some md =>
          Some (if String.eqb ty "all" then all_types else [ty],
                if String.eqb md "all" then "overwrite" else "fill",
                if String.eqb md "all" then AllCards
                else NeedingAI (if String.eqb ty "all" then "both" else ty))
      | _, _ => None
      end
  end.

Inductive StartResponse :=
| Resp409
| Resp400 (msg : string)
| RespNoCards
| RespStarted (total : nat) (types : list string) (strategyMode : string)
| Resp500 (msg : option string).

(** The handler. [config] is the configuration step ([getDecryptedAIConfig]
    then [validateAIConfig]): it throws ([inl e]) or gives the validation
    verdict, [None] for valid and [Some message] otherwise; [fetch] answers
    the card queries or throws. Other requests may run during the awaits:
    [m] is the manager when the request arrives and [m_start] the one
    [start] is called on. The answer and, when [start] was called, the
    manager it leaves. *)
Definition batchTaskStart (m : Manager) (config : JsError + option string)
    (cardIds : option (list Z)) (type mode : option string)
    (types : option (list string)) (strategyMode : option string)
    (fetch : CardSource -> JsError + list Card) (m_start : Manager) (now : Z)
    : StartResponse * option Manager :=
  if isRunning m then (Resp409, None)
  else
    match config with
    | inl e => (Resp500 (message e), None)
    | inr (Some msg) => (Resp400 msg, None)
    | inr None =>
        match resolveStart cardIds type mode types strategyMode with
        | None => (Resp400 "参数不完整", None)
        | Some (taskTypes, md, src) =>
            match fetch src with
            | inl e => (Resp500 (message e), None)
            | inr [] => (RespNoCards, None)
            | inr cards =>
                match start m_start cards taskTypes now with
                | (inr total, m') => (RespStarted total taskTypes md, Some m')
                | (inl (AlreadyRunning msg), m') => (Resp500 (Some msg), Some m')
                end
            end
        end
    end.

(** ** [autoGenerateForCards]

    What it does, in order: the [generateCardFields] calls (their types and
    strategy mode) and the waits. Each call settles with [Some updated] or
    throws ([None]); those throws are caught in the loop body. A database
    read that throws ends the function through its outer [catch], without
    the backup. *)
Inductive AutoEvent :=
| AGen (types : list string) (mode : string)
| AWait (ms : Q).

(** The body of the loop for a card found in the database. *)
Definition autoCard (needsName needsDesc : bool) (delay : Z)
    (call : list string -> option bool) : list AutoEvent * bool :=
  let half := (inject_Z delay / inject_Z 2)%Q in
  if needsName && needsDesc then
    match call ["name"; "description"; "tags"] with
    | Some u => ([AGen ["name"; "description"; "tags"] "fill"], u)
    | None =>
        match call ["name"; "description"] with
        | None => ([AGen ["name"; "description"; "tags"] "fill";
                    AGen ["name"; "description"] "fill"], false)
        | Some u1 =>
            ([AGen ["name"; "description"; "tags"] "fill";
              AGen ["name"; "description"] "fill"; AWait half;
              AGen ["tags"] "fill"],
             match call ["tags"] with Some u2 => u1 || u2 | None => u1 end)
        end
    end
  else if needsName || needsDesc then
    let fieldType := if needsName then "name" else "description" in
    let (ev1, u1) := match call [fieldType] with
                     | Some u => ([AGen [fieldType] "overwrite"; AWait half], u)
                     | None => ([AGen [fieldType] "overwrite"], false)
                     end in
    ((ev1 ++ [AGen ["tags"] "fill"])%list,
     u1 || match call ["tags"] with Some u => u | None => false end)
  else
    ([AGen ["tags"] "fill"], match call ["tags"] with Some u => u | None => false end).

(** The loop over [cardIds] from index [i]: [found] gives the answer of
    [db.getCardsByIds] for a card: it throws ([None]), finds nothing
    ([Some None]) or finds the card, with the results of [checkIsDirtyName]
    and [checkIsDirtyDesc]; [n] is [cardIds.length]. A card not found skips
    the rest of the body, the wait between cards included. The answer is
    the events and [hasUpdates] at the end of the loop, or [None] when a
    read threw. *)
Fixpoint auto_loop (i n : nat) (cardIds : list Z)
    (found : Z -> option (option (bool * bool)))
    (call : Z -> list string -> option bool) (delay : Z) (hasUpdates : bool)
    : list AutoEvent * option bool :=
  match cardIds with
  | [] => ([], Some hasUpdates)
  | cid :: rest =>
      match found cid with
      | None => ([], None)
      | Some None => auto_loop (S i) n rest found call delay hasUpdates
      | Some (Some (needsName, needsDesc)) =>
          let (evs, cardUpdated) := autoCard needsName needsDesc delay (call cid) in
          let wait := if Nat.ltb i (n - 1) then [AWait (inject_Z delay)] else [] in
          let (evs', h) := auto_loop (S i) n rest found call delay (hasUpdates || cardUpdated) in
          ((evs ++ wait ++ evs')%list, h)
      end
  end.

(** [rawConfig.autoGenerate === 'true'] *)
Definition autoGenerate_on (autoGenerate : option string) : bool :=
  match autoGenerate with Some a => String.eqb a "true" | None => false end.

(** The events, and whether [triggerDebouncedBackup] is called.
    [rawConfig] is what [db.getAIConfig] gives ([autoGenerate] and
    [requestDelay]) or [None] when it throws; [config] is [None] when
    [getDecryptedAIConfig] throws and otherwise the verdict of
    [validateAIConfig]; [tagsRead] tells whether [db.getAllTagNames]
    succeeds. *)
Definition autoGenerateForCards (rawConfig : option (option string * option string))
    (config : option bool) (tagsRead : bool) (cardIds : list Z)
    (found : Z -> option (option (bool * bool)))
    (call : Z -> list string -> option bool) : list AutoEvent * bool :=
  match rawConfig with
  | None => ([], false)
  | Some (autoGenerate, requestDelay) =>
      if autoGenerate_on autoGenerate then
        match config with
        | Some true =>
            if tagsRead then
              let (evs, h) := auto_loop 0 (List.length cardIds) cardIds found call
                                (autoGenerate_delay requestDelay) false in
              (evs, match h with Some b => b | None => false end)
            else ([], false)
        | _ => ([], false)
        end
      else ([], false)
  end.

(** What every event of [autoGenerateForCards] satisfies: a wait lasts
    between 250 ms and [delay]; a call asks for known field types, in fill
    mode or for one single field in overwrite mode. *)
Definition auto_event_ok (delay : Z) (ev : AutoEvent) : Prop :=
  match ev with
  | AWait q => (inject_Z 250 <= q <= inject_Z delay)%Q
  | AGen tys md =>
      incl tys all_types /\ tys <> [] /\
      (md = "fill" \/ (md = "overwrite" /\ List.length tys = 1%nat))
  end.

(** The number of [generateCardFields] calls among the events. *)
Definition gen_count (evs : list AutoEvent) : nat :=
  List.length (filter (fun ev => match ev with AGen _ _ => true | AWait _ => false end) evs).

(** Whether the card [cid] ends up with [cardUpdated] true. *)
Definition card_updated (found : Z -> option (option (bool * bool)))
    (call : Z -> list string -> option bool) (delay : Z) (cid : Z) : bool :=
  match found cid with
  | Some (Some (needsName, needsDesc)) => snd (autoCard needsName needsDesc delay (call cid))
  | _ => false
  end.

(** Whether the lookup of [cid] does not throw. *)
Definition lookup_ok (found : Z -> option (option (bool * bool))) (cid : Z) : bool :=
  match found cid with Some _ => true | None => false end.

(** ** Lemmas *)

Definition conc_ok (t : Task) : Prop :=
  (minConcurrency <= concurrency t <= maxConcurrency)%nat.

Lemma apply_one_concurrency now t bs bf hrl cr :
  concurrency (fst (fst (fst (apply_one now (t, bs, bf, hrl) cr)))) = concurrency t.
Proof.
  destruct cr as [card [v|m]]; simpl;
    [destruct (success v), (truthy (r_partialError v)), (rateLimited v), (truthy (r_error v))|];
    reflexivity.
Qed.

Lemma adjustConcurrency_bounds t s f h :
  conc_ok t -> conc_ok (adjustConcurrency t s f h).
Proof.
  unfold conc_ok, adjustConcurrency, minConcurrency, maxConcurrency.
  intros Hc.
  destruct h; cbn [set_adaptive concurrency].
  - pose proof (Nat.Div0.div_le_upper_bound (concurrency t) 2 (concurrency t)).
    lia.
  - destruct (Nat.ltb 0 s && Nat.eqb f 0); cbn [set_adaptive concurrency]; [|exact Hc].
    destruct (Nat.leb 3 (S (consecutiveSuccesses t)) && Nat.ltb (concurrency t) 5);
      cbn [set_adaptive concurrency]; [lia | exact Hc].
Qed.

Lemma task_step_conc_ok t t' : task_step t t' -> conc_ok t -> conc_ok t'.
Proof.
  intros Hs Hc; destruct Hs; try exact Hc.
  - unfold conc_ok; rewrite apply_one_concurrency; exact Hc.
  - apply adjustConcurrency_bounds; exact Hc.
Qed.

(** ** Claims *)

(** C1: the task starts with concurrency 3, [adjustConcurrency] keeps it
    within [1, 5], and every reachable task state has
    [1 <= concurrency <= 5]. *)
Theorem concurrency_in_bounds :
  (forall tys n now, concurrency (new_task tys n now) = initialConcurrency) /\
  (forall t s f h, conc_ok t -> conc_ok (adjustConcurrency t s f h)) /\
  (forall t, reachable t -> (1 <= concurrency t <= 5)%nat).
Proof.
  split; [reflexivity|].
  split; [exact adjustConcurrency_bounds|].
  intros t Hr.
  enough (conc_ok t) by exact H.
  induction Hr as [tys n now | t t' _ IH Hs].
  - unfold conc_ok; simpl; unfold minConcurrency, maxConcurrency, initialConcurrency; lia.
  - exact (task_step_conc_ok t t' Hs IH).
Qed.

(** C2: on a rate-limited window the adaptor sets concurrency to
    [max(min, floor(c/2))], resets the clean streak, increments
    [rateLimitCount] and sets [isRateLimited]. *)
Theorem adjust_rate_limited :
  forall t s f,
    let t' := adjustConcurrency t s f true in
    concurrency t' = Nat.max minConcurrency (concurrency t / 2) /\
    consecutiveSuccesses t' = 0%nat /\
    rateLimitCount t' = S (rateLimitCount t) /\
    isRateLimited t' = true.
Proof.
  intros t s f; simpl; repeat split.
Qed.

(** Witness of C1: a task after a rate-limited window is reachable and in
    bounds. *)
Lemma concurrency_in_bounds_witness :
  let t := adjustConcurrency (new_task [] 10 0) 0 1 true in
  reachable t /\ (1 <= concurrency t <= 5)%nat.
Proof.
  intros t.
  assert (Hr : reachable t)
    by (apply (reach_step (new_task [] 10 0)); [apply reach_start | apply step_adjust]).
  split; [exact Hr|].
  apply (proj2 (proj2 concurrency_in_bounds)); exact Hr.
Defined.

(** C3 (counterexample): after a rate-limited window, a mixed window (one
    success, one non-rate-limit failure) leaves [isRateLimited] at [true]:
    it is not cleared. *)
Lemma mixed_window_keeps_rate_limited_flag :
  let t1 := adjustConcurrency (new_task [] 10 0) 0 1 true in
  let t2 := adjustConcurrency t1 1 1 false in
  isRateLimited t2 = true /\ isRateLimited t2 <> false.
Proof.
  split; [reflexivity | discriminate].
Qed.

(** C3 (amended): on a mixed window (a failure, no rate-limit signal) the
    adaptor resets the clean streak and leaves concurrency,
    [rateLimitCount] and [isRateLimited] unchanged; in general
    [isRateLimited] becomes true on a rate-limited window, false on a fully
    clean one, and otherwise keeps its value. *)
Theorem adjust_mixed_window :
  forall t s f, (0 < f)%nat ->
    let t' := adjustConcurrency t s f false in
    concurrency t' = concurrency t /\
    consecutiveSuccesses t' = 0%nat /\
    rateLimitCount t' = rateLimitCount t /\
    isRateLimited t' = isRateLimited t /\
    (forall s' f' h,
       isRateLimited (adjustConcurrency t s' f' h) =
       if h then true
       else if Nat.ltb 0 s' && Nat.eqb f' 0 then false
       else isRateLimited t).
Proof.
  intros t s f Hf t'.
  assert (E : Nat.eqb f 0 = false) by (apply Nat.eqb_neq; lia).
  assert (Et' : t' = set_adaptive (concurrency t) (isRateLimited t) 0%nat
                      (rateLimitCount t) t)
    by (unfold t', adjustConcurrency; rewrite E, andb_false_r; reflexivity).
  rewrite Et'; split; [reflexivity|]; split; [reflexivity|];
    split; [reflexivity|]; split; [reflexivity|].
  intros s' f' [|]; [reflexivity|].
  unfold adjustConcurrency.
  destruct (Nat.ltb 0 s' && Nat.eqb f' 0); [|reflexivity].
  destruct (Nat.leb 3 (S (consecutiveSuccesses t)) && Nat.ltb (concurrency t) maxConcurrency);
    reflexivity.
Qed.

Lemma adjust_mixed_window_witness :
  let t1 := adjustConcurrency (new_task [] 10 0) 0 1 true in
  (0 < 1)%nat /\ isRateLimited (adjustConcurrency t1 1 1 false) = isRateLimited t1.
Proof.
  split; [lia|].
  apply (adjust_mixed_window (adjustConcurrency (new_task [] 10 0) 0 1 true) 1 1); lia.
Defined.

(** C4: on a fully clean window the adaptor increments the clean streak and
    clears [isRateLimited]; when the streak reaches 3 with concurrency below
    the maximum, concurrency grows by exactly 1 and the streak resets. With
    10 cards all succeeding the windows are [3; 3; 3; 1] and concurrency is
    4 from the snapshot of the third window on. *)
Theorem adjust_clean_window :
  forall t s, (0 < s)%nat ->
    let t' := adjustConcurrency t s 0 false in
    isRateLimited t' = false /\
    (if Nat.leb 3 (S (consecutiveSuccesses t)) && Nat.ltb (concurrency t) maxConcurrency
     then concurrency t' = S (concurrency t) /\ consecutiveSuccesses t' = 0%nat
     else concurrency t' = concurrency t /\
          consecutiveSuccesses t' = S (consecutiveSuccesses t)) /\
    launches (snd (run_scenario (fun _ => Fulfilled ok_result) (fun _ => false)))
      = [3; 3; 3; 1]%nat /\
    after_windows (snd (run_scenario (fun _ => Fulfilled ok_result) (fun _ => false)))
      = [(3, false); (3, false); (4, false); (4, false)]%nat.
Proof.
  intros t s Hs t'.
  assert (E : Nat.ltb 0 s = true) by (apply Nat.ltb_lt; exact Hs).
  split; [|split]; [| |split; vm_compute; reflexivity].
  - unfold t', adjustConcurrency; rewrite E; cbn [andb Nat.eqb].
    destruct (Nat.leb 3 (S (consecutiveSuccesses t)) && Nat.ltb (concurrency t) maxConcurrency);
      reflexivity.
  - unfold t', adjustConcurrency; rewrite E; cbn [andb Nat.eqb].
    destruct (Nat.leb 3 (S (consecutiveSuccesses t)) && Nat.ltb (concurrency t) maxConcurrency)
      eqn:C; cbn [set_adaptive concurrency consecutiveSuccesses]; [|split; reflexivity].
    apply andb_prop in C as [_ C]; apply Nat.ltb_lt in C.
    unfold maxConcurrency in *; split; [lia | reflexivity].
Qed.

Lemma adjust_clean_window_witness :
  (0 < 2)%nat /\
  concurrency (adjustConcurrency (new_task [] 10 0) 2 0 false) = initialConcurrency.
Proof.
  split; [lia|].
  destruct (adjust_clean_window (new_task [] 10 0) 2 ltac:(lia)) as [_ [H _]].
  exact (proj1 H).
Defined.

(** C5: [calculateDelay] is the spec's Delay Calculator: for a rate-limited
    window [min(base * 2^min(rateLimitCount, 4), 30000)], otherwise [base]
    at concurrency 1 and [max(200, base/2)] above. *)
Theorem calculateDelay_spec :
  forall t base hasRateLimit,
    calculateDelay (Some t) base hasRateLimit =
    spec_delay base (concurrency t) (rateLimitCount t) hasRateLimit.
Proof.
  intros t base [|]; unfold calculateDelay, spec_delay.
  - unfold js_min, Qmin, GenericMinMax.gmin.
    destruct (Qle_bool _ _) eqn:L.
    + apply Qle_bool_iff in L.
      destruct (Qcompare _ _) eqn:C; try reflexivity.
      apply Qgt_alt in C; exfalso; apply (Qle_not_lt _ _ L); exact C.
    + destruct (Qcompare _ _) eqn:C; try reflexivity.
      * apply Qeq_alt in C.
        rewrite (proj2 (Qle_bool_iff _ _)) in L; [discriminate|].
        rewrite C; apply Qle_refl.
      * apply Qlt_alt in C; apply Qlt_le_weak, Qle_bool_iff in C; congruence.
  - destruct (Nat.eqb (concurrency t) 1); [reflexivity|].
    unfold js_max, Qmax, GenericMinMax.gmax.
    destruct (Qle_bool _ _) eqn:L.
    + apply Qle_bool_iff in L.
      destruct (Qcompare _ _) eqn:C; try reflexivity.
      apply Qlt_alt in C; exfalso; apply (Qle_not_lt _ _ L); exact C.
    + destruct (Qcompare _ _) eqn:C; try reflexivity.
      * apply Qeq_alt in C.
        rewrite (proj2 (Qle_bool_iff _ _)) in L; [discriminate|].
        rewrite C; apply Qle_refl.
      * apply Qgt_alt in C; apply Qlt_le_weak, Qle_bool_iff in C; congruence.
Qed.

(** C6 (counterexample): item 4 of 10 fails twice with a 429 error and then
    succeeds. The executor sleeps 2 s then 4 s and reports a plain success;
    its window (the second) is not marked rate-limited and concurrency stays
    3 instead of being halved. *)
Lemma retried_item_does_not_mark_window :
  processCardWithRetry 0 retry_outcomes = Some (ok_result, [2000; 4000]%Z) /\
  nth 1 (after_windows (snd (run_scenario proc_retry (fun _ => false)))) (0%nat, false)
    = (3%nat, false) /\
  nth 1 (after_windows (snd (run_scenario proc_retry (fun _ => false)))) (0%nat, false)
    <> (Nat.max minConcurrency (3 / 2), true).
Proof.
  split; [reflexivity|].
  split; [vm_compute; reflexivity|].
  vm_compute; discriminate.
Qed.

(** C6 (amended): an item whose processing fails twice with rate-limit
    errors and then succeeds is retried after sleeps of 2 s and 4 s and
    reported as a success that is not rate-limited; applying it adds one to
    [current] and [successCount], adds no [errors] entry and leaves the
    window's [hasRateLimit] as it was. In the ten-card scenario its window
    counts as clean and concurrency is not halved. *)
Theorem retry_then_success :
  forall e1 e2 u,
    isRateLimitError e1 = true -> isRateLimitError e2 = true ->
    processCardWithRetry 0 [GenErr e1; GenErr e2; GenOk u None]
      = Some (success_result u, [2000; 4000]%Z) /\
    (forall now t bs bf hrl card,
       apply_one now (t, bs, bf, hrl) (card, Fulfilled (success_result u)) =
       (set_counts (S (current t)) (S (successCount t)) (failCount t) t, S bs, bf, hrl)) /\
    nth 1 (after_windows (snd (run_scenario proc_retry (fun _ => false)))) (0%nat, false)
      = (3%nat, false).
Proof.
  intros e1 e2 u H1 H2.
  split; [|split; [|vm_compute; reflexivity]].
  - simpl; rewrite H1, H2; reflexivity.
  - intros; reflexivity.
Qed.

Lemma retry_then_success_witness :
  isRateLimitError e429 = true /\
  processCardWithRetry 0 retry_outcomes = Some (success_result true, [2000; 4000]%Z).
Proof.
  split; [reflexivity|].
  exact (proj1 (retry_then_success e429 e429 true eq_refl eq_refl)).
Defined.

(** C8: the errors seen through [getStatus] are the last 100 recorded ones:
    at most 100, a suffix of the recorded list, and recording one more error
    when 100 or more are recorded drops the oldest visible one. *)
Theorem errors_ring_buffer :
  forall t (e : ErrEntry),
    let es := s_errors (snapshot t) in
    (List.length es <= 100)%nat /\
    errors t = (firstn (List.length (errors t) - 100)%nat (errors t) ++ es)%list /\
    ((100 <= List.length (errors t))%nat ->
       s_errors (snapshot (push_error e t)) = (tl es ++ [e])%list) /\
    ((List.length (errors t) < 100)%nat ->
       s_errors (snapshot (push_error e t)) = (es ++ [e])%list).
Proof.
  intros t e es.
  unfold es, snapshot, push_error, slice_last; cbn [s_errors errors].
  set (l := errors t).
  split; [rewrite length_skipn; lia|].
  split; [symmetry; apply firstn_skipn|].
  rewrite length_app; cbn [List.length].
  split; intros H.
  - replace (List.length l + 1 - 100)%nat with (1 + (List.length l - 100))%nat by lia.
    rewrite <- skipn_skipn, skipn_app.
    replace (List.length l - 100 - List.length l)%nat with 0%nat by lia.
    cbn [skipn].
    destruct (skipn (List.length l - 100) l) eqn:E; [|reflexivity].
    apply (f_equal (@List.length ErrEntry)) in E.
    rewrite length_skipn in E; cbn in E; lia.
  - replace (List.length l + 1 - 100)%nat with 0%nat by lia.
    replace (List.length l - 100)%nat with 0%nat by lia.
    reflexivity.
Qed.

Lemma errors_ring_buffer_witness :
  let t := task_with_errors (map err_n (seq 0 100)) in
  (100 <= List.length (errors t))%nat /\
  s_errors (snapshot (push_error (err_n 100) t))
    = (tl (s_errors (snapshot t)) ++ [err_n 100])%list.
Proof.
  split; [vm_compute; lia|].
  apply (errors_ring_buffer (task_with_errors (map err_n (seq 0 100))) (err_n 100)).
  vm_compute; lia.
Defined.

(** ** Lemmas on one window *)

Lemma apply_one_step now t bs bf hrl cr :
  let t1 := acc_task (apply_one now (t, bs, bf, hrl) cr) in
  running t1 = running t /\ total t1 = total t /\
  (successCount t1 + failCount t1 = S (successCount t + failCount t))%nat.
Proof.
  destruct cr as [card [v|m]]; unfold acc_task; simpl;
    [destruct (success v), (truthy (r_partialError v)), (rateLimited v), (truthy (r_error v))|];
    simpl; repeat split; lia.
Qed.

Lemma fold_apply_one now l : forall t bs bf hrl,
  let t' := acc_task (fold_left (apply_one now) l (t, bs, bf, hrl)) in
  running t' = running t /\ total t' = total t /\
  (successCount t' + failCount t' = successCount t + failCount t + List.length l)%nat.
Proof.
  induction l as [|cr l IH]; intros t bs bf hrl; cbn [fold_left].
  - unfold acc_task; simpl; repeat split; lia.
  - destruct (apply_one now (t, bs, bf, hrl) cr) as [[[t1 bs1] bf1] hrl1] eqn:E.
    pose proof (apply_one_step now t bs bf hrl cr) as H1.
    unfold acc_task in H1; rewrite E in H1; simpl in H1.
    destruct (IH t1 bs1 bf1 hrl1) as (R & T & C).
    destruct H1 as (R1 & T1 & C1).
    repeat split; [congruence | congruence | cbn [List.length]; lia].
Qed.

Lemma adjust_keeps_counts t s f h :
  let t' := adjustConcurrency t s f h in
  running t' = running t /\ total t' = total t /\
  successCount t' = successCount t /\ failCount t' = failCount t.
Proof.
  unfold adjustConcurrency.
  destruct h; [repeat split|].
  destruct (Nat.ltb 0 s && Nat.eqb f 0); [|repeat split].
  destruct (Nat.leb 3 (S (consecutiveSuccesses t)) && Nat.ltb (concurrency t) maxConcurrency);
    repeat split.
Qed.

Lemma length_combine_map {A B} (f : A -> B) (l : list A) :
  List.length (combine l (map f l)) = List.length l.
Proof.
  rewrite length_combine, length_map; lia.
Qed.

(** C9 (counterexample): with ten cards all succeeding and [stop] called
    while the first window is in flight, only that window is launched, but
    the final snapshot reports [current = total = 10], not
    [current < total]. *)
Lemma stop_mid_window_final_current :
  let evs := snd (run_scenario (fun _ => Fulfilled ok_result) (fun k => Nat.eqb k 0)) in
  launches evs = [3%nat] /\
  option_map (fun s => (s_running s, s_current s, s_total s)) (final_status evs)
    = Some (false, 10%nat, 10%nat) /\
  ~ (exists s, final_status evs = Some s /\ (s_current s < s_total s)%nat).
Proof.
  split; [vm_compute; reflexivity|].
  split; [vm_compute; reflexivity|].
  intros (s & Hs & Hlt).
  vm_compute in Hs; injection Hs as <-; simpl in Hlt; lia.
Qed.

(** C9 (amended): if [stop] is called while a window is in flight and cards
    remain after it, that window's results are all applied, no further
    window is launched, no inter-batch sleep happens, the loop ends with the
    abort flag raised at an index strictly below the number of cards, and
    the final snapshot has [running = false] and [current] forced to
    [total]. *)
Theorem stop_mid_window :
  forall extractDomain cards proc stop_in_window stop_in_sleep now base fuel k t index,
    running t = true ->
    (index < List.length cards)%nat ->
    stop_in_window k = true ->
    let n := List.length (firstn (concurrency t) (skipn index cards)) in
    (index + n < List.length cards)%nat ->
    let r := loop extractDomain cards proc stop_in_window stop_in_sleep now base
               (S fuel) k t false index in
    launches (loop_events r) = [n] /\
    (forall d, ~ In (Sleep d) (loop_events r)) /\
    loop_aborted r = true /\
    loop_index r = (index + n)%nat /\ (loop_index r < List.length cards)%nat /\
    (successCount (loop_task r) + failCount (loop_task r)
       = successCount t + failCount t + n)%nat /\
    s_running (snapshot (finalize (loop_task r))) = false /\
    s_current (snapshot (finalize (loop_task r))) = total t /\
    s_total (snapshot (finalize (loop_task r))) = total t.
Proof.
  intros extractDomain cards proc siw sis now base fuel k t index Hrun Hidx Hstop n Hrest r.
  unfold r; clear r.
  cbn [loop].
  rewrite (proj2 (Nat.ltb_lt _ _) Hidx), Hrun, Hstop; cbn [orb negb].
  unfold stop_point.
  set (batch := firstn (concurrency t) (skipn index cards)) in *.
  set (t2 := stop_task (set_currentCard (label extractDomain batch) t)).
  unfold apply_results.
  pose proof (fold_apply_one now (combine batch (map proc batch)) t2 0 0 false) as HF.
  destruct (fold_left (apply_one now) (combine batch (map proc batch)) (t2, 0%nat, 0%nat, false))
    as [[[t3 bs] bf] hrl] eqn:E.
  unfold acc_task in HF; simpl in HF.
  destruct HF as (R3 & T3 & C3).
  rewrite length_combine_map in C3.
  pose proof (adjust_keeps_counts t3 bs bf hrl) as (R4 & T4 & S4 & F4).
  set (t4 := adjustConcurrency t3 bs bf hrl) in *.
  assert (Hr4 : running t4 = false) by (rewrite R4, R3; reflexivity).
  rewrite Hr4, andb_false_r.
  assert (Hend : loop extractDomain cards proc siw sis now base fuel (S k) t4 true
                   (index + List.length batch) = (t4, true, (index + List.length batch)%nat, [])).
  { destruct fuel; cbn [loop]; [reflexivity|].
    destruct (Nat.ltb _ _); reflexivity. }
  rewrite Hend.
  fold n; unfold loop_events, loop_aborted, loop_index, loop_task; cbn [fst snd].
  split; [simpl; reflexivity|].
  split; [intros d Hin; simpl in Hin; intuition discriminate|].
  split; [reflexivity|].
  split; [reflexivity|].
  split; [exact Hrest|].
  split; [rewrite S4, F4, C3; reflexivity|].
  unfold finalize, snapshot; cbn.
  split; [reflexivity|].
  rewrite T4, T3; split; reflexivity.
Qed.

Lemma stop_mid_window_witness :
  (0 < 10)%nat /\ (0 + 3 < 10)%nat /\
  launches (loop_events (loop (fun u => u) scenario_cards (fun _ => Fulfilled ok_result)
                           (fun k => Nat.eqb k 0) (fun _ => false) 0 1500 5 0
                           (new_task ["name"] 10 0) false 0)) = [3%nat].
Proof.
  split; [lia|]; split; [lia|].
  exact (proj1 (stop_mid_window (fun u => u) scenario_cards (fun _ => Fulfilled ok_result)
                  (fun k => Nat.eqb k 0) (fun _ => false) 0 1500 4 0
                  (new_task ["name"] 10 0) 0 eq_refl ltac:(vm_compute; lia) eq_refl
                  ltac:(vm_compute; lia))).
Defined.


(** C10 (counterexample): a configured [requestDelay] of ["0"] parses to 0,
    which [|| 1500] treats as missing: the base delay is 1500 ms, whereas
    clamping the parsed value would give 500 ms. *)
Lemma requestDelay_zero :
  jsParseInt "0" = Some 0%Z /\
  baseDelay_of (Some "0") = 1500%Z /\
  spec_baseDelay (Some "0") = 500%Z.
Proof.
  repeat split.
Qed.

(** C10 (amended): the base delay always lies in [500, 10000]; it is the
    parsed value clamped into that range when [parseInt] yields a non-zero
    number, and 1500 ms when the value is missing, unparsable or parses to
    0. *)
Theorem baseDelay_of_spec :
  forall requestDelay,
    (500 <= baseDelay_of requestDelay <= 10000)%Z /\
    (forall n, jsParseInt (requestDelay_string requestDelay) = Some n -> n <> 0%Z ->
       baseDelay_of requestDelay = Z.max 500 (Z.min 10000 n)) /\
    ((jsParseInt (requestDelay_string requestDelay) = None \/
      jsParseInt (requestDelay_string requestDelay) = Some 0%Z) ->
       baseDelay_of requestDelay = 1500%Z) /\
    baseDelay_of None = 1500%Z.
Proof.
  intros rd; unfold baseDelay_of.
  split; [|split; [|split]].
  - destruct (jsParseInt _) as [n|]; [destruct (Z.eqb n 0)|]; lia.
  - intros n Hn H0; rewrite Hn.
    apply Z.eqb_neq in H0; rewrite H0; reflexivity.
  - intros [Hn|Hn]; rewrite Hn; reflexivity.
  - reflexivity.
Qed.

Lemma baseDelay_of_spec_witness :
  jsParseInt (requestDelay_string (Some " 20000ms")) = Some 20000%Z /\
  baseDelay_of (Some " 20000ms") = 10000%Z /\
  baseDelay_of (Some "abc") = 1500%Z.
Proof.
  split; [reflexivity|]; split.
  - exact (proj1 (proj2 (baseDelay_of_spec (Some " 20000ms"))) 20000%Z eq_refl
             ltac:(discriminate)).
  - exact (proj1 (proj2 (proj2 (baseDelay_of_spec (Some "abc")))) (or_introl eq_refl)).
Defined.

(** ** Further properties of the code *)

Lemma fold_apply_one_concurrency now l : forall t bs bf hrl,
  concurrency (acc_task (fold_left (apply_one now) l (t, bs, bf, hrl))) = concurrency t.
Proof.
  induction l as [|cr l IH]; intros t bs bf hrl; cbn [fold_left]; [reflexivity|].
  destruct (apply_one now (t, bs, bf, hrl) cr) as [[[t1 bs1] bf1] hrl1] eqn:E.
  rewrite IH.
  pose proof (apply_one_concurrency now t bs bf hrl cr) as H.
  rewrite E in H; exact H.
Qed.

Lemma launches_sleep_app d evs : launches (Sleep d :: evs) = launches evs.
Proof. reflexivity. Qed.

Lemma length_firstn_skipn_pos (c index : nat) (l : list Card) :
  (1 <= c)%nat -> (index < List.length l)%nat ->
  (1 <= List.length (firstn c (skipn index l)) <= c)%nat /\
  (index + List.length (firstn c (skipn index l)) <= List.length l)%nat.
Proof.
  intros Hc Hi; rewrite length_firstn, length_skipn; lia.
Qed.

(** Without [stop], the loop run from any in-bounds state with enough fuel
    processes every remaining card exactly once. *)
Lemma loop_completes :
  forall extractDomain cards proc now base fuel k t index,
    running t = true -> conc_ok t ->
    (index <= List.length cards)%nat ->
    (List.length cards - index < fuel)%nat ->
    let r := loop extractDomain cards proc (fun _ => false) (fun _ => false) now base
               fuel k t false index in
    loop_index r = List.length cards /\
    loop_aborted r = false /\
    running (loop_task r) = true /\
    conc_ok (loop_task r) /\
    total (loop_task r) = total t /\
    list_sum (launches (loop_events r)) = (List.length cards - index)%nat /\
    Forall (fun n => 1 <= n <= maxConcurrency)%nat (launches (loop_events r)) /\
    (successCount (loop_task r) + failCount (loop_task r)
       = successCount t + failCount t + (List.length cards - index))%nat.
Proof.
  intros ed cards proc now base fuel.
  induction fuel as [|fuel IH]; intros k t index Hrun Hc Hidx Hfuel r; [lia|].
  unfold r; clear r; cbn [loop].
  destruct (Nat.ltb index (List.length cards)) eqn:Hlt.
  2:{ apply Nat.ltb_ge in Hlt.
      unfold loop_index, loop_aborted, loop_task, loop_events; cbn [fst snd launches].
      replace (List.length cards - index)%nat with 0%nat by lia.
      split; [lia|]; split; [reflexivity|]; split; [exact Hrun|]; split; [exact Hc|].
      split; [reflexivity|]; split; [reflexivity|]; split; [constructor|]; lia. }
  apply Nat.ltb_lt in Hlt.
  rewrite Hrun; cbn [orb negb].
  unfold stop_point; cbn [app].
  set (batch := firstn (concurrency t) (skipn index cards)).
  set (t1 := set_currentCard (label ed batch) t).
  unfold apply_results.
  pose proof (fold_apply_one now (combine batch (map proc batch)) t1 0 0 false) as HF.
  pose proof (fold_apply_one_concurrency now (combine batch (map proc batch)) t1 0 0 false) as HC.
  destruct (fold_left (apply_one now) (combine batch (map proc batch)) (t1, 0%nat, 0%nat, false))
    as [[[t3 bs] bf] hrl] eqn:E.
  unfold acc_task in HF, HC; simpl in HF, HC.
  destruct HF as (R3 & T3 & C3).
  rewrite length_combine_map in C3.
  pose proof (adjust_keeps_counts t3 bs bf hrl) as (R4 & T4 & S4 & F4).
  assert (Hc3 : conc_ok t3) by (unfold conc_ok; rewrite HC; exact Hc).
  pose proof (adjustConcurrency_bounds t3 bs bf hrl Hc3) as Hc4.
  set (t4 := adjustConcurrency t3 bs bf hrl) in *.
  assert (Hr4 : running t4 = true) by (rewrite R4, R3; exact Hrun).
  destruct (length_firstn_skipn_pos (concurrency t) index cards) as [Hb1 Hb2];
    [unfold conc_ok, minConcurrency in Hc; lia | exact Hlt|].
  fold batch in Hb1, Hb2.
  assert (Hfuel' : (List.length cards - (index + List.length batch) < fuel)%nat) by lia.
  destruct (IH (S k) t4 (index + List.length batch)%nat Hr4 Hc4 Hb2 Hfuel')
    as (I & A & R & Cc & T & L & F & SF).
  rewrite Hr4, andb_true_r.
  destruct (Nat.ltb (index + List.length batch) (List.length cards));
    cbn [stop_point];
    destruct (loop ed cards proc (fun _ => false) (fun _ => false) now base fuel (S k) t4 false
                (index + List.length batch)) as [[[tf abf] idf] evf];
    unfold loop_index, loop_aborted, loop_task, loop_events in *; cbn [fst snd] in *;
    cbn [launches app]; change (list_sum (?x :: ?l)) with (x + list_sum l)%nat;
    (split; [exact I|]); (split; [exact A|]); (split; [exact R|]); (split; [exact Cc|]);
    (split; [rewrite T, T4, T3; reflexivity|]);
    (split; [rewrite L; lia|]);
    (split; [constructor; [unfold conc_ok in Hc; lia | exact F]|]);
    rewrite SF, S4, F4, C3; cbn [set_currentCard successCount failCount] in *; lia.
Qed.

Lemma launches_app l1 l2 : launches (l1 ++ l2) = (launches l1 ++ launches l2)%list.
Proof.
  induction l1 as [|e l1 IH]; [reflexivity|].
  destruct e; cbn [app launches]; rewrite ?IH; reflexivity.
Qed.

(** The loop of [runTask] started by [start] and never stopped runs to the
    end of the cards. *)
Lemma runTask_natural_completion :
  forall extractDomain cards proc now base tys startTime,
    let r := runTask extractDomain cards proc (fun _ => false) (fun _ => false) now base
               (new_task tys (List.length cards) startTime) false in
    let tf := fst (fst r) in
    snd (fst r) = List.length cards /\
    (successCount tf + failCount tf = total tf)%nat /\
    total tf = List.length cards /\
    current tf = total tf /\
    running tf = false /\
    list_sum (launches (snd r)) = List.length cards /\
    Forall (fun n => 1 <= n <= maxConcurrency)%nat (launches (snd r)).
Proof.
  intros ed cards proc now base tys st r tf.
  assert (Hc0 : conc_ok (new_task tys (List.length cards) st))
    by (unfold conc_ok; simpl; unfold minConcurrency, maxConcurrency, initialConcurrency; lia).
  pose proof (loop_completes ed cards proc now base (S (List.length cards)) 0
                (new_task tys (List.length cards) st) 0 eq_refl Hc0 ltac:(lia) ltac:(lia))
    as H.
  unfold tf, r, runTask; clear tf r.
  destruct (loop ed cards proc (fun _ => false) (fun _ => false) now base
              (S (List.length cards)) 0 (new_task tys (List.length cards) st) false 0)
    as [[[t ab] i] evs].
  unfold loop_index, loop_aborted, loop_task, loop_events in H; cbn [fst snd] in *.
  destruct H as (I & _ & _ & _ & T & L & F & SF).
  cbn [new_task successCount failCount total] in T, SF.
  rewrite launches_app, app_nil_r; cbn [launches app].
  unfold finalize; cbn [set_current set_currentCard set_running successCount failCount
                        total current running].
  repeat split; try assumption; lia.
Qed.

(** [runTask] started by [start] and never stopped, with the reads before
    its loop ([db.getAllTagNames], [db.getAIConfig]) either succeeding or
    throwing. It always ends with [running = false] and [current = total].
    When the reads succeed, it applies the result of every card exactly once
    ([successCount + failCount = total]), in windows of 1 to 5 cards whose
    sizes add up to the number of cards. When a read throws, no card is
    processed and the only error recorded is the system entry of the
    [catch], with the message of the thrown error. *)
Theorem runTask_outcome :
  forall extractDomain cards proc now reads tys startTime,
    let r := runTask_reads extractDomain cards proc (fun _ => false) (fun _ => false) now
               reads (new_task tys (List.length cards) startTime) false in
    let tf := fst (fst r) in
    current tf = total tf /\
    running tf = false /\
    total tf = List.length cards /\
    match reads with
    | inr _ =>
        snd (fst r) = List.length cards /\
        (successCount tf + failCount tf = total tf)%nat /\
        list_sum (launches (snd r)) = List.length cards /\
        Forall (fun n => 1 <= n <= maxConcurrency)%nat (launches (snd r))
    | inl msg =>
        snd (fst r) = 0%nat /\
        (successCount tf + failCount tf = 0)%nat /\
        launches (snd r) = [] /\
        errors tf = [{| e_cardId := 0; e_cardTitle := "系统"; e_error := msg;
                        e_time := now; e_isWarning := false |}]
    end.
Proof.
  intros ed cards proc now reads tys st r tf.
  unfold tf, r, runTask_reads; clear tf r.
  destruct reads as [msg|base].
  - cbn; repeat split; reflexivity.
  - destruct (runTask_natural_completion ed cards proc now base tys st)
      as (I & SF & T & C & R & L & F).
    repeat split; try assumption; rewrite C; exact T.
Qed.

Lemma js_min_le_r a b : js_min a b <= b.
Proof.
  unfold js_min; destruct (Qle_bool a b) eqn:E; [apply Qle_bool_iff; exact E | apply Qle_refl].
Qed.

Lemma js_min_ge lo a b : lo <= a -> lo <= b -> lo <= js_min a b.
Proof. unfold js_min; destruct (Qle_bool a b); auto. Qed.

Lemma js_max_ge_l a b : a <= js_max a b.
Proof.
  unfold js_max; destruct (Qle_bool b a) eqn:E; [apply Qle_refl|].
  apply Qlt_le_weak, Qnot_le_lt; intros H.
  apply Qle_bool_iff in H; congruence.
Qed.

Lemma js_max_ge_r a b : b <= js_max a b.
Proof.
  unfold js_max; destruct (Qle_bool b a) eqn:E; [apply Qle_bool_iff; exact E | apply Qle_refl].
Qed.

Lemma js_max_le hi a b : a <= hi -> b <= hi -> js_max a b <= hi.
Proof. unfold js_max; destruct (Qle_bool b a); auto. Qed.

Lemma Zle_inject (x y : Z) : (x <= y)%Z -> inject_Z x <= inject_Z y.
Proof. rewrite Zle_Qle; exact (fun H => H). Qed.

(** Every inter-batch delay [runTask] can compute lies between 250 ms and
    30 s, whatever the configured [requestDelay], the task state and the
    window outcome. *)
Theorem calculateDelay_range :
  forall requestDelay t hasRateLimit,
    let d := calculateDelay (Some t) (baseDelay_of requestDelay) hasRateLimit in
    inject_Z 250 <= d /\ d <= inject_Z 30000.
Proof.
  intros rd t h d.
  destruct (proj1 (baseDelay_of_spec rd)) as [Lo Hi].
  set (b := baseDelay_of rd) in *.
  unfold d, calculateDelay; clear d.
  destruct h.
  - set (m := Nat.min (rateLimitCount t) 4).
    assert (Hp : (1 <= 2 ^ Z.of_nat m)%Z)
      by (change 1%Z with (2 ^ 0)%Z; apply Z.pow_le_mono_r; lia).
    split; [|apply js_min_le_r].
    apply js_min_ge; apply Zle_inject; nia.
  - destruct (Nat.eqb (concurrency t) 1).
    + split; apply Zle_inject; lia.
    + split.
      * apply Qle_trans with (inject_Z b / inject_Z 2); [|apply js_max_ge_r].
        apply Qle_shift_div_l; [reflexivity|].
        change (inject_Z 250 * inject_Z 2) with (inject_Z 500); apply Zle_inject; lia.
      * apply js_max_le; [apply Zle_inject; lia|].
        apply Qle_shift_div_r; [reflexivity|].
        apply Qle_trans with (inject_Z 60000); [apply Zle_inject; lia|].
        change (inject_Z 30000 * inject_Z 2) with (inject_Z 60000); apply Qle_refl.
Qed.

(** Closes one case of [processCardWithRetry_retries] from the equation
    [H] giving the result. *)
Ltac close_retry H :=
  injection H as <- <-; cbn;
  split; [first [left; reflexivity | right; left; reflexivity | right; right; reflexivity]|];
  split; [lia|];
  split; [repeat (apply Forall_cons; [eexists; split; [reflexivity | eassumption]|]);
          apply Forall_nil|];
  split; intros Hx; first [discriminate Hx | split; reflexivity | reflexivity].

(** [processCardWithRetry] makes at most three attempts: its sleeps are 2 s
    then 4 s, each one follows an attempt that failed with a rate-limit
    error, and a failure is reported as rate-limited only once both retries
    are spent. A success is never reported as rate-limited. *)
Theorem processCardWithRetry_retries :
  forall outs r ds,
    processCardWithRetry 0 outs = Some (r, ds) ->
    (ds = [] \/ ds = [2000%Z] \/ ds = [2000; 4000]%Z) /\
    (List.length ds < List.length outs)%nat /\
    Forall (fun o => exists e, o = GenErr e /\ isRateLimitError e = true)
      (firstn (List.length ds) outs) /\
    (rateLimited r = true -> success r = false /\ ds = [2000; 4000]%Z) /\
    (success r = true -> rateLimited r = false).
Proof.
  intros outs r ds H.
  destruct outs as [|[u p|e1] outs]; cbn in H; [discriminate| close_retry H |].
  destruct (isRateLimitError e1) eqn:R1; cbn in H; [|close_retry H].
  destruct outs as [|[u p|e2] outs]; cbn in H; [discriminate| close_retry H |].
  destruct (isRateLimitError e2) eqn:R2; cbn in H; [|close_retry H].
  destruct outs as [|[u p|e3] outs]; cbn in H; [discriminate| close_retry H |].
  rewrite andb_false_r in H.
  close_retry H.
Qed.

Lemma processCardWithRetry_retries_witness :
  processCardWithRetry 0 retry_outcomes = Some (ok_result, [2000; 4000]%Z) /\
  (List.length [2000; 4000]%Z < List.length retry_outcomes)%nat.
Proof.
  split; [reflexivity|].
  exact (proj1 (proj2 (processCardWithRetry_retries retry_outcomes ok_result
                         [2000; 4000]%Z eq_refl))).
Defined.

(** [stop] is idempotent, creates no task on an idle manager, and changes
    only [running] and [currentCard] of an existing task (counters,
    concurrency and errors are kept). *)
Theorem stop_idempotent :
  forall m,
    stop (stop m) = stop m /\
    (m_task m = None -> m_task (stop m) = None) /\
    (forall t, m_task m = Some t ->
       m_task (stop m) = Some (set_currentCard "已停止" (set_running false t))).
Proof.
  intros [[t|] ab inf]; unfold stop; cbn.
  - split; [destruct ab; reflexivity|].
    split; [discriminate|]. intros t' H; injection H as <-; reflexivity.
  - split; [destruct ab; reflexivity|]. split; [reflexivity|discriminate].
Qed.

Lemma stop_idempotent_witness :
  m_task manager0 = None /\ m_task (stop manager0) = None.
Proof.
  split; [reflexivity|].
  exact (proj1 (proj2 (stop_idempotent manager0)) eq_refl).
Defined.

(** The delay between cards of [autoGenerateForCards] is at least 500 ms
    but has no upper clamp; the batch scheduler's base delay is the same
    value capped at 10 s. *)
Theorem autoGenerate_delay_vs_base :
  forall requestDelay,
    (500 <= autoGenerate_delay requestDelay)%Z /\
    baseDelay_of requestDelay = Z.min 10000 (autoGenerate_delay requestDelay).
Proof.
  intros rd; unfold autoGenerate_delay, baseDelay_of.
  destruct (jsParseInt _) as [n|]; [destruct (Z.eqb n 0)|]; lia.
Qed.

(** ** [generateCardFields] *)

Lemma field_loop_multi outcome tys : forall u fieldErrors,
  field_loop false outcome tys u fieldErrors =
  inl (u || existsb (field_changed outcome) tys,
       fieldErrors ++ map (field_error outcome) (filter (field_failed outcome) tys))%list.
Proof.
  induction tys as [|ty rest IH]; intros u fe; cbn [field_loop existsb filter map].
  - rewrite orb_false_r, app_nil_r; reflexivity.
  - unfold field_changed at 1, field_failed at 1.
    destruct (is_gen_field ty); cbn [andb].
    + destruct (outcome ty) as [c|e] eqn:O; rewrite IH.
      * rewrite orb_assoc; reflexivity.
      * cbn [orb map].
        replace (field_error outcome ty) with (ty, message_text e)
          by (unfold field_error; rewrite O; reflexivity).
        rewrite <- app_assoc; reflexivity.
    + rewrite IH; reflexivity.
Qed.

Lemma prefix_app s1 : forall s2 t,
  String.prefix s1 s2 = true -> String.prefix s1 (s2 ++ t) = true.
Proof.
  induction s1 as [|c s1 IH]; intros s2 t H; [destruct (s2 ++ t); reflexivity|].
  destruct s2 as [|c2 s2]; [discriminate|].
  cbn in *; destruct (ascii_dec c c2); [apply IH; exact H | discriminate].
Qed.

Lemma includes_app_l sub s t :
  includes sub s = true -> includes sub (s ++ t) = true.
Proof.
  induction s as [|c s IH]; intros H.
  - destruct sub as [|a sub]; [destruct t; reflexivity|].
    cbn in H; discriminate.
  - cbn [append]; cbn [includes] in H |- *.
    destruct (String.prefix sub (String c s)) eqn:P.
    + pose proof (prefix_app sub (String c s) t P) as P'.
      cbn [append] in P'; rewrite P'; reflexivity.
    + destruct (String.prefix sub (String c (s ++ t))); [reflexivity|].
      apply IH; exact H.
Qed.

Lemma includes_app_r sub s t :
  includes sub t = true -> includes sub (s ++ t) = true.
Proof.
  induction s as [|c s IH]; intros H; [exact H|].
  cbn [append includes].
  destruct (String.prefix sub (String c (s ++ t))); [reflexivity|].
  apply IH; exact H.
Qed.

Lemma includes_concat sub sep l x :
  In x l -> includes sub x = true -> includes sub (String.concat sep l) = true.
Proof.
  induction l as [|y l IH]; intros Hin Hx; [destruct Hin|].
  destruct Hin as [<-|Hin].
  - destruct l; cbn [String.concat]; [exact Hx|].
    apply includes_app_l; exact Hx.
  - destruct l as [|z l]; [destruct Hin|].
    change (String.concat sep (y :: z :: l)) with (y ++ (sep ++ String.concat sep (z :: l))).
    apply includes_app_r, includes_app_r, IH; assumption.
Qed.

Lemma isRateLimitError_message_mono m M :
  (forall sub, includes sub m = true -> includes sub M = true) ->
  isRateLimitError (mkJsError (Some m) None None) = true ->
  isRateLimitError (mkJsError (Some M) None None) = true.
Proof.
  intros Hs; unfold isRateLimitError; cbn [message status statusCode]; intros Hm.
  repeat match type of Hm with
  | context [includes ?p m] =>
      let E := fresh "E" in
      destruct (includes p m) eqn:E; [rewrite (Hs p E)|]
  end;
  repeat match goal with |- context [includes ?p M] => destruct (includes p M) end;
  cbn in Hm |- *; first [reflexivity | discriminate].
Qed.

Lemma existsb_filter {A} (f : A -> bool) l :
  existsb f l = match filter f l with [] => false | _ :: _ => true end.
Proof.
  induction l as [|x l IH]; [reflexivity|].
  cbn; destruct (f x); [reflexivity|exact IH].
Qed.

Lemma generateCardFields_fallback_eq mode dirtyName dirtyDesc types u0 outcome :
  let needed := neededTypes (isFillMode mode) dirtyName dirtyDesc types in
  (2 <= List.length needed)%nat ->
  generateCardFields mode dirtyName dirtyDesc types (UnifiedThrew u0) outcome =
  (let updated := u0 || existsb (field_changed outcome) needed in
   let fieldErrors := map (field_error outcome) (filter (field_failed outcome) needed) in
   if existsb (field_failed outcome) needed then
     if updated then GenOk true (Some (partial_message fieldErrors))
     else GenErr (mkJsError (Some (combined_message fieldErrors)) None None)
   else GenOk updated None).
Proof.
  cbv zeta; intros Hlen.
  unfold generateCardFields; cbv zeta.
  destruct (neededTypes (isFillMode mode) dirtyName dirtyDesc types) as [|t0 [|t1 rest]] eqn:N;
    cbn [List.length] in Hlen; try lia.
  set (needed := t0 :: t1 :: rest).
  replace (Nat.ltb 1 (List.length needed)) with true by reflexivity.
  replace (Nat.eqb (List.length needed) 1) with false by reflexivity.
  rewrite field_loop_multi, (existsb_filter (field_failed outcome)); cbn [app].
  destruct (filter (field_failed outcome) needed) as [|f fs]; cbn [map].
  - reflexivity.
  - destruct (u0 || existsb (field_changed outcome) needed); reflexivity.
Qed.

Lemma generateCardFields_single_eq mode dirtyName dirtyDesc types unified outcome ty e :
  neededTypes (isFillMode mode) dirtyName dirtyDesc types = [ty] ->
  is_gen_field ty = true -> outcome ty = FieldErr e ->
  generateCardFields mode dirtyName dirtyDesc types unified outcome = GenErr e.
Proof.
  intros N G O; unfold generateCardFields; rewrite N; cbn.
  rewrite G, O; reflexivity.
Qed.

(** [neededTypes]: in overwrite mode every requested type is kept; in fill
    mode (any other [strategy.mode]) a [name] or [description] is kept only
    when the current value is judged dirty, any other type always. *)
Theorem neededTypes_spec :
  (forall dirtyName dirtyDesc types,
     neededTypes (isFillMode (Some "overwrite")) dirtyName dirtyDesc types = types) /\
  (forall mode dirtyName dirtyDesc types ty,
     In ty (neededTypes (isFillMode mode) dirtyName dirtyDesc types) <->
     In ty types /\
     (mode <> Some "overwrite" ->
      (ty = "name" -> dirtyName = true) /\ (ty = "description" -> dirtyDesc = true))).
Proof.
  split.
  - intros dn dd types; unfold neededTypes; cbn [isFillMode String.eqb negb andb].
    induction types as [|ty rest IH]; [reflexivity|].
    cbn [filter]; rewrite IH.
    destruct (String.eqb ty "name"); [reflexivity|].
    destruct (String.eqb ty "description"); reflexivity.
  - intros mode dn dd types ty; unfold neededTypes; rewrite filter_In.
    assert (Fm : isFillMode mode = true <-> mode <> Some "overwrite").
    { unfold isFillMode; destruct mode as [m|]; [|split; [congruence|reflexivity]].
      rewrite negb_true_iff, String.eqb_neq; split; congruence. }
    destruct (isFillMode mode) eqn:F.
    + assert (mode <> Some "overwrite") as M by (apply Fm; reflexivity).
      destruct (String.eqb_spec ty "name") as [->|Hn];
        [|destruct (String.eqb_spec ty "description") as [->|Hd]];
        cbn [andb negb]; rewrite ?negb_involutive; split; intros Hx.
      * destruct Hx as [Hi Hd]; split; [exact Hi|intros _; split; intros E;
          [exact Hd|discriminate E]].
      * destruct Hx as [Hi Hc]; split; [exact Hi|apply (proj1 (Hc M)); reflexivity].
      * destruct Hx as [Hi Hd]; split; [exact Hi|intros _; split; intros E;
          [discriminate E|exact Hd]].
      * destruct Hx as [Hi Hc]; split; [exact Hi|apply (proj2 (Hc M)); reflexivity].
      * split; [apply Hx|intros _; split; intros; contradiction].
      * split; [apply Hx|reflexivity].
    + assert (mode = Some "overwrite") as M.
      { destruct mode as [m|]; [|discriminate].
        unfold isFillMode in F; apply negb_false_iff, String.eqb_eq in F; congruence. }
      destruct (String.eqb ty "name"); [|destruct (String.eqb ty "description")];
        cbn [andb negb]; split; intros Hx;
        solve [split; [apply Hx|intros Hm; contradiction]
              | split; [apply Hx|reflexivity]].
Qed.

(** A single needed field whose call throws makes [generateCardFields] throw
    that same error, [status] and [statusCode] included; when the field keeps
    failing the same way, [processCardWithRetry] retries it twice (after 2000
    and 4000 ms) exactly when it is a rate-limit error, and reports its
    message. *)
Theorem generateCardFields_single_rethrows mode dirtyName dirtyDesc types unified outcome ty e
    (H1 : neededTypes (isFillMode mode) dirtyName dirtyDesc types = [ty])
    (H2 : is_gen_field ty = true) (H3 : outcome ty = FieldErr e) :
  let g := generateCardFields mode dirtyName dirtyDesc types unified outcome in
  g = GenErr e /\
  processCardWithRetry 0 [g; g; g] =
  Some ({| success := false; r_updated := None; rateLimited := isRateLimitError e;
           r_error := message e; r_partialError := None |},
        if isRateLimitError e then [2000; 4000]%Z else []).
Proof.
  cbv zeta.
  rewrite (generateCardFields_single_eq mode dirtyName dirtyDesc types unified outcome ty e H1 H2 H3).
  split; [reflexivity|].
  cbn [processCardWithRetry]; destruct (isRateLimitError e); reflexivity.
Qed.

Lemma generateCardFields_single_rethrows_witness :
  let outcome := fun _ : string => FieldErr (mkJsError (Some "boom") (Some 429%Z) None) in
  let g := generateCardFields None true false ["name"; "description"] (UnifiedOk true) outcome in
  g = GenErr (mkJsError (Some "boom") (Some 429%Z) None) /\
  processCardWithRetry 0 [g; g; g] =
  Some ({| success := false; r_updated := None;
           rateLimited := isRateLimitError (mkJsError (Some "boom") (Some 429%Z) None);
           r_error := Some "boom"; r_partialError := None |},
        if isRateLimitError (mkJsError (Some "boom") (Some 429%Z) None)
        then [2000; 4000]%Z else []).
Proof.
  exact (generateCardFields_single_rethrows None true false ["name"; "description"]
           (UnifiedOk true) (fun _ => FieldErr (mkJsError (Some "boom") (Some 429%Z) None))
           "name" (mkJsError (Some "boom") (Some 429%Z) None) eq_refl eq_refl eq_refl).
Defined.

(** With two or more needed fields, a unified request that returns settles
    the card with its [updated] and no partial error; if it threw, every
    needed field is tried once: no failure gives its [updated]; failures with
    some write give [updated] true and the failed fields as partial error;
    failures with no write at all throw a new error carrying the joined field
    messages and no status. *)
Theorem generateCardFields_multi mode dirtyName dirtyDesc types outcome
    (H : (2 <= List.length (neededTypes (isFillMode mode) dirtyName dirtyDesc types))%nat) :
  let needed := neededTypes (isFillMode mode) dirtyName dirtyDesc types in
  (forall u, generateCardFields mode dirtyName dirtyDesc types (UnifiedOk u) outcome = GenOk u None) /\
  (forall u0,
     generateCardFields mode dirtyName dirtyDesc types (UnifiedThrew u0) outcome =
     (let updated := u0 || existsb (field_changed outcome) needed in
      let fieldErrors := map (field_error outcome) (filter (field_failed outcome) needed) in
      if existsb (field_failed outcome) needed then
        if updated then GenOk true (Some (partial_message fieldErrors))
        else GenErr (mkJsError (Some (combined_message fieldErrors)) None None)
      else GenOk updated None)).
Proof.
  cbv zeta; split.
  - intros u; unfold generateCardFields; cbv zeta.
    destruct (neededTypes (isFillMode mode) dirtyName dirtyDesc types) as [|t0 [|t1 rest]];
      cbn [List.length] in H; [lia|lia|reflexivity].
  - intros u0; exact (generateCardFields_fallback_eq mode dirtyName dirtyDesc types u0 outcome H).
Qed.

Lemma generateCardFields_multi_witness :
  (2 <= List.length (neededTypes (isFillMode None) true true ["name"; "tags"]))%nat /\
  generateCardFields None true true ["name"; "tags"] (UnifiedThrew false)
    (fun ty => if String.eqb ty "tags" then FieldOk true
               else FieldErr (mkJsError (Some "bad") None None)) =
  GenOk true (Some (partial_message [("name", "bad")])).
Proof.
  split; [cbn; lia|].
  exact (proj2 (generateCardFields_multi None true true ["name"; "tags"]
          (fun ty => if String.eqb ty "tags" then FieldOk true
                     else FieldErr (mkJsError (Some "bad") None None))
          ltac:(cbn; lia)) false).
Defined.

(** When every needed field of the fallback fails, the error thrown has no
    [status] nor [statusCode], no field was written, and it is still
    classified as a rate-limit error whenever the message of one of the
    field errors alone is. *)
Theorem generateCardFields_all_failed mode dirtyName dirtyDesc types u0 outcome e'
    (H : (2 <= List.length (neededTypes (isFillMode mode) dirtyName dirtyDesc types))%nat)
    (Herr : generateCardFields mode dirtyName dirtyDesc types (UnifiedThrew u0) outcome = GenErr e') :
  let needed := neededTypes (isFillMode mode) dirtyName dirtyDesc types in
  status e' = None /\ statusCode e' = None /\ u0 = false /\
  existsb (field_changed outcome) needed = false /\
  existsb (field_failed outcome) needed = true /\
  (forall ty e m, In ty needed -> is_gen_field ty = true -> outcome ty = FieldErr e ->
     message e = Some m -> isRateLimitError (mkJsError (Some m) None None) = true ->
     isRateLimitError e' = true).
Proof.
  cbv zeta.
  rewrite (generateCardFields_fallback_eq mode dirtyName dirtyDesc types u0 outcome H) in Herr.
  cbv zeta in Herr.
  set (needed := neededTypes (isFillMode mode) dirtyName dirtyDesc types) in *.
  destruct (existsb (field_failed outcome) needed) eqn:F; [|discriminate].
  destruct (u0 || existsb (field_changed outcome) needed) eqn:U; [discriminate|].
  apply orb_false_iff in U; destruct U as [U0 UC].
  injection Herr as <-; cbn [status statusCode].
  do 5 (split; [assumption || reflexivity|]).
  intros ty e m Hin G O M R.
  apply (isRateLimitError_message_mono m); [|exact R].
  intros sub Hs; unfold combined_message.
  apply (includes_concat _ _ _ (ty ++ ": " ++ m)).
  - rewrite map_map; apply in_map_iff; exists ty; split.
    + unfold field_error; rewrite O; cbn [fst snd]; unfold message_text; rewrite M; reflexivity.
    + apply filter_In; split; [exact Hin|unfold field_failed; rewrite G, O; reflexivity].
  - apply includes_app_r, includes_app_r; exact Hs.
Qed.

Lemma generateCardFields_all_failed_witness :
  let outcome := fun ty : string =>
    if String.eqb ty "name" then FieldErr (mkJsError (Some "HTTP 429") None None)
    else FieldErr (mkJsError (Some "timeout") None None) in
  let e' := mkJsError (Some (combined_message [("name", "HTTP 429"); ("tags", "timeout")])) None None in
  (2 <= List.length (neededTypes (isFillMode None) true true ["name"; "tags"]))%nat /\
  generateCardFields None true true ["name"; "tags"] (UnifiedThrew false) outcome = GenErr e' /\
  isRateLimitError e' = true.
Proof.
  cbv zeta.
  assert (Hl : (2 <= List.length (neededTypes (isFillMode None) true true ["name"; "tags"]))%nat)
    by (cbn; lia).
  assert (He : generateCardFields None true true ["name"; "tags"] (UnifiedThrew false)
     (fun ty : string =>
        if String.eqb ty "name" then FieldErr (mkJsError (Some "HTTP 429") None None)
        else FieldErr (mkJsError (Some "timeout") None None)) =
     GenErr (mkJsError (Some (combined_message [("name", "HTTP 429"); ("tags", "timeout")])) None None))
    by reflexivity.
  split; [exact Hl|split; [exact He|]].
  refine (proj2 (proj2 (proj2 (proj2 (proj2
            (generateCardFields_all_failed None true true ["name"; "tags"] false _ _ Hl He)))))
            "name" (mkJsError (Some "HTTP 429") None None) "HTTP 429" _ eq_refl eq_refl eq_refl eq_refl).
  cbn; left; reflexivity.
Defined.

(** ** [buildPromptWithStrategy] *)

Lemma append_empty_r (s : string) : (s ++ "")%string = s.
Proof. induction s as [|c s IH]; [reflexivity|cbn; rewrite IH; reflexivity]. Qed.

Lemma append_assoc_str (a b c : string) : ((a ++ b) ++ c)%string = (a ++ (b ++ c))%string.
Proof. induction a as [|x a IH]; [reflexivity|cbn; rewrite IH; reflexivity]. Qed.

Lemma append_system_shape suffix p :
  exists sfx, append_system suffix p =
    match p with [] => [] | m :: rest => mkMsg (role m) (content m ++ sfx) :: rest end.
Proof.
  destruct p as [|m rest]; [exists ""; reflexivity|].
  unfold append_system; destruct (String.eqb (role m) "system").
  - exists suffix; reflexivity.
  - exists ""; rewrite append_empty_r; destruct m; reflexivity.
Qed.

(** [buildPromptWithStrategy] changes nothing but the content of the first
    message, to which it only appends text: roles, the number of messages
    and every later message are kept. *)
Theorem buildPromptWithStrategy_shape basePrompt style customPrompt :
  exists suffix,
    buildPromptWithStrategy basePrompt style customPrompt =
    match basePrompt with
    | [] => []
    | m :: rest => mkMsg (role m) (content m ++ suffix) :: rest
    end.
Proof.
  unfold buildPromptWithStrategy.
  assert (Id : exists sfx, basePrompt =
     match basePrompt with [] => [] | m :: rest => mkMsg (role m) (content m ++ sfx) :: rest end)
    by (exists ""; destruct basePrompt as [|[r c] rest]; [|cbn; rewrite append_empty_r]; reflexivity).
  destruct (truthy style) as [s|]; [|exact Id].
  destruct (String.eqb s "default"); [exact Id|].
  assert (P1 : exists sfx1,
     match styleHint s with
     | Some h => append_system ("
风格要求：" ++ h) basePrompt
     | None => basePrompt
     end =
     match basePrompt with [] => [] | m :: rest => mkMsg (role m) (content m ++ sfx1) :: rest end).
  { destruct (styleHint s); [apply append_system_shape|exact Id]. }
  destruct P1 as [sfx1 P1]; rewrite P1.
  destruct (truthy customPrompt) as [c|]; [|exists sfx1; reflexivity].
  destruct (append_system_shape ("
额外要求：" ++ c)
              match basePrompt with [] => [] | m :: rest => mkMsg (role m) (content m ++ sfx1) :: rest end)
    as [sfx2 E].
  exists (sfx1 ++ sfx2); rewrite E.
  destruct basePrompt as [|m rest]; [reflexivity|].
  cbn [role content]; rewrite append_assoc_str; reflexivity.
Qed.

(** With a system message first, any other non-empty style appends the style
    requirement (when [styleHints[style]] is set: one of the four own keys,
    or a member [styleHints] inherits from [Object.prototype], whose string
    form is taken) and then the extra requirement of a non-empty
    [customPrompt]. *)
Theorem buildPromptWithStrategy_system m rest s c
    (Hr : role m = "system") (Hs : s <> "") (Hd : s <> "default") (Hc : c <> "") :
  buildPromptWithStrategy (m :: rest) (Some s) (Some c) =
  mkMsg "system" (content m ++ match styleHint s with
                               | Some h => "
风格要求：" ++ h
                               | None => ""
                               end ++ "
额外要求：" ++ c) :: rest.
Proof.
  unfold buildPromptWithStrategy, truthy.
  apply String.eqb_neq in Hs, Hd, Hc; rewrite Hs, Hd, Hc.
  destruct (styleHint s) as [h|]; unfold append_system; cbn [role content];
    rewrite Hr, ?String.eqb_refl; cbn [role content]; rewrite ?String.eqb_refl.
  - rewrite append_assoc_str; reflexivity.
  - reflexivity.
Qed.

Lemma buildPromptWithStrategy_system_witness :
  role (mkMsg "system" "base") = "system" /\ "toString" <> "default" /\
  buildPromptWithStrategy [mkMsg "system" "base"; mkMsg "user" "q"] (Some "toString") (Some "short") =
  [mkMsg "system" ("base" ++ match styleHint "toString" with
                             | Some h => "
风格要求：" ++ h
                             | None => ""
                             end ++ "
额外要求：" ++ "short");
   mkMsg "user" "q"].
Proof.
  split; [reflexivity|split; [discriminate|]].
  refine (buildPromptWithStrategy_system (mkMsg "system" "base") [mkMsg "user" "q"]
            "toString" "short" eq_refl _ _ _); discriminate.
Defined.

(** ** The [/batch-task/start] route *)

(** The handler answers 409 exactly when a task is running when the
    request arrives. It answers 500 only for an error thrown by the
    configuration step or the card query (with that error's message), or
    when another request started a task during its awaits, so that [start]
    rejects; in a run with no other request in between, only the first
    cause remains. When it starts a task, the task runs with the types and
    strategy mode chosen by [resolveStart] and the cards the query returned
    (at least one); in every other case it does not call [start]. *)
Theorem batchTaskStart_outcomes m config cardIds type mode types strategyMode fetch m_start now :
  let r := batchTaskStart m config cardIds type mode types strategyMode fetch m_start now in
  let threw (msg : option string) := exists e, msg = message e /\
        (config = inl e \/
         exists tys md src, resolveStart cardIds type mode types strategyMode = Some (tys, md, src) /\
                            fetch src = inl e) in
  (fst r = Resp409 <-> isRunning m = true) /\
  match fst r with
  | Resp500 msg =>
      threw msg \/
      (isRunning m_start = true /\ msg = Some "已有任务在运行中" /\ snd r = Some m_start)
  | RespStarted total tys md =>
      exists src cards m',
        resolveStart cardIds type mode types strategyMode = Some (tys, md, src) /\
        fetch src = inr cards /\ total = List.length cards /\ (0 < total)%nat /\
        snd r = Some m' /\ isRunning m' = true /\
        m_task m' = Some (new_task tys total now)
  | _ => snd r = None
  end /\
  match fst (batchTaskStart m config cardIds type mode types strategyMode fetch m now) with
  | Resp500 msg => threw msg
  | _ => True
  end.
Proof.
  cbv zeta; unfold batchTaskStart.
  destruct (isRunning m) eqn:R; [split; [split; reflexivity|split; reflexivity]|].
  destruct config as [e|[msg|]].
  - split; [split; discriminate|].
    split; [left; exists e; split; [reflexivity|left; reflexivity]|].
    exists e; split; [reflexivity|left; reflexivity].
  - split; [split; discriminate|split; [reflexivity|exact I]].
  - destruct (resolveStart cardIds type mode types strategyMode) as [[[tys md] src]|] eqn:Rs;
      [|split; [split; discriminate|split; [reflexivity|exact I]]].
    destruct (fetch src) as [e|[|c cs]] eqn:F.
    + assert (T : exists e', message e = message e' /\
                    (@inr JsError (option string) None = inl e' \/
                     exists tys' md' src', Some (tys, md, src) = Some (tys', md', src') /\
                                           fetch src' = inl e'))
        by (exists e; split; [reflexivity|right; exists tys, md, src; split; [reflexivity|exact F]]).
      split; [split; discriminate|split; [left; exact T|exact T]].
    + split; [split; discriminate|split; [reflexivity|exact I]].
    + unfold start; rewrite R; destruct (isRunning m_start) eqn:Rs'; cbn [fst snd].
      * split; [split; discriminate|split; [|exact I]].
        right; split; [reflexivity|split; reflexivity].
      * split; [split; discriminate|split; [|exact I]].
        exists src, (c :: cs), {| m_task := Some (new_task tys (List.length (c :: cs)) now);
                                  m_abort := Some false; m_inflight := true |}.
        repeat split; try reflexivity; [exact F|cbn [List.length]; lia].
Qed.

(** A task is run in overwrite mode only when asked for: either by
    [strategy.mode] together with a non-empty [cardIds], or by
    [mode = 'all'] without [cardIds], which then takes all the cards. *)
Theorem resolveStart_overwrite cardIds type mode types strategyMode tys src
    (H : resolveStart cardIds type mode types strategyMode = Some (tys, "overwrite", src)) :
  (exists id ids, cardIds = Some (id :: ids) /\ strategyMode = Some "overwrite" /\
                  src = ByIds (id :: ids)) \/
  (mode = Some "all" /\ src = AllCards /\ type <> None /\
   (forall id ids, cardIds <> Some (id :: ids))).
Proof.
  unfold resolveStart in H.
  destruct cardIds as [[|id ids]|].
  - right.
    destruct (truthy type) as [ty|] eqn:T; [|discriminate].
    destruct (truthy mode) as [md|] eqn:M; [|discriminate].
    destruct (String.eqb_spec md "all") as [->|Hm]; [injection H as _ Hs|discriminate H].
    split; [destruct mode as [x|]; cbn in M; [destruct (String.eqb x ""); congruence|discriminate]|].
    split; [congruence|].
    split; [destruct type; [discriminate|discriminate T]|].
    intros i l; discriminate.
  - left; exists id, ids.
    injection H as _ Hmd Hs; split; [reflexivity|split; [|congruence]].
    destruct strategyMode as [x|]; cbn in Hmd; [|discriminate].
    destruct (String.eqb x ""); congruence.
  - right.
    destruct (truthy type) as [ty|] eqn:T; [|discriminate].
    destruct (truthy mode) as [md|] eqn:M; [|discriminate].
    destruct (String.eqb_spec md "all") as [->|Hm]; [injection H as _ Hs|discriminate H].
    split; [destruct mode as [x|]; cbn in M; [destruct (String.eqb x ""); congruence|discriminate]|].
    split; [congruence|].
    split; [destruct type; [discriminate|discriminate T]|].
    intros i l; discriminate.
Qed.

Lemma resolveStart_overwrite_witness :
  resolveStart None (Some "name") (Some "all") None None = Some (["name"], "overwrite", AllCards) /\
  ((exists id ids, @None (list Z) = Some (id :: ids) /\ @None string = Some "overwrite" /\
                   AllCards = ByIds (id :: ids)) \/
   (Some "all" = Some "all" /\ AllCards = AllCards /\ Some "name" <> None /\
    (forall id ids, @None (list Z) <> Some (id :: ids)))).
Proof.
  split; [reflexivity|].
  exact (resolveStart_overwrite None (Some "name") (Some "all") None None ["name"] AllCards eq_refl).
Defined.

(** ** [autoGenerateForCards] *)

Lemma half_delay_bounds d :
  (500 <= d)%Z -> (inject_Z 250 <= inject_Z d / inject_Z 2 <= inject_Z d)%Q.
Proof.
  intros Hd; split.
  - apply Qle_shift_div_l; [reflexivity|].
    rewrite <- inject_Z_mult, <- Zle_Qle; lia.
  - apply Qle_shift_div_r; [reflexivity|].
    rewrite <- inject_Z_mult, <- Zle_Qle; lia.
Qed.

Lemma delay_bounds d :
  (500 <= d)%Z -> (inject_Z 250 <= inject_Z d <= inject_Z d)%Q.
Proof.
  intros Hd; split; [rewrite <- Zle_Qle; lia|apply Qle_refl].
Qed.

Lemma autoCard_events needsName needsDesc d call :
  (500 <= d)%Z ->
  Forall (auto_event_ok d) (fst (autoCard needsName needsDesc d call)) /\
  (1 <= gen_count (fst (autoCard needsName needsDesc d call)) <= 3)%nat /\
  exists tys md, last (fst (autoCard needsName needsDesc d call)) (AWait 0) = AGen tys md.
Proof.
  intros Hd.
  pose proof (half_delay_bounds d Hd) as Hh.
  assert (Hincl : forall tys, Forall (fun ty => In ty all_types) tys -> incl tys all_types)
    by (intros tys F x Hx; rewrite Forall_forall in F; auto).
  assert (Ok : forall tys md, Forall (fun ty => In ty all_types) tys -> tys <> [] ->
                 md = "fill" \/ (md = "overwrite" /\ List.length tys = 1%nat) ->
                 auto_event_ok d (AGen tys md))
    by (intros; cbn; auto).
  assert (Nm : In "name" all_types) by (cbn; auto).
  assert (Ds : In "description" all_types) by (cbn; auto).
  assert (Tg : In "tags" all_types) by (cbn; auto).
  unfold autoCard.
  destruct needsName, needsDesc; cbn [andb orb];
    repeat match goal with |- context [call ?l] => destruct (call l) end;
    cbn [fst gen_count filter List.length app last];
    (split;
     [repeat (first
        [ apply Forall_nil
        | apply Forall_cons;
          [ first
              [ exact Hh
              | apply Ok;
                [ repeat (first [apply Forall_nil | apply Forall_cons; [assumption|]])
                | discriminate
                | first [left; reflexivity | right; split; reflexivity] ] ]
          | ] ])|]);
    (split; [lia|]); eexists _, _; reflexivity.
Qed.

Lemma auto_loop_props i n cardIds found call d h :
  (500 <= d)%Z ->
  snd (auto_loop i n cardIds found call d h) =
    (if forallb (lookup_ok found) cardIds
     then Some (h || existsb (card_updated found call d) cardIds) else None) /\
  Forall (auto_event_ok d) (fst (auto_loop i n cardIds found call d h)) /\
  (gen_count (fst (auto_loop i n cardIds found call d h)) <= 3 * List.length cardIds)%nat.
Proof.
  intros Hd; revert i h.
  induction cardIds as [|cid rest IH]; intros i h.
  - cbn; rewrite orb_false_r; repeat split; auto.
  - cbn [auto_loop existsb forallb List.length].
    unfold card_updated at 1, lookup_ok at 1.
    destruct (found cid) as [[[nn nd]|]|].
    + destruct (autoCard_events nn nd d (call cid) Hd) as [F [C _]].
      destruct (autoCard nn nd d (call cid)) as [evs cu] eqn:A; cbn [fst snd] in F, C |- *.
      specialize (IH (S i) (h || cu)).
      destruct (auto_loop (S i) n rest found call d (h || cu)) as [evs' h'];
        cbn [fst snd] in IH |- *.
      destruct IH as [U [F' C']].
      split; [rewrite U, orb_assoc; reflexivity|].
      assert (W : Forall (auto_event_ok d)
                    (if Nat.ltb i (n - 1) then [AWait (inject_Z d)] else []) /\
                  gen_count (if Nat.ltb i (n - 1) then [AWait (inject_Z d)] else []) = 0%nat)
        by (destruct (Nat.ltb i (n - 1)); split; [constructor; [exact (delay_bounds d Hd)|constructor]
                                                  |reflexivity|constructor|reflexivity]).
      destruct W as [W Wc].
      split; [apply Forall_app; split; [exact F|apply Forall_app; split; assumption]|].
      unfold gen_count in *; rewrite !filter_app, !length_app; lia.
    + specialize (IH (S i) h); destruct IH as [U [F' C']].
      split; [exact U|split; [exact F'|lia]].
    + cbn; repeat split; [constructor|lia].
Qed.

(** [autoGenerateForCards] triggers the backup exactly when the reads of
    the configuration succeed with automatic generation on and a valid
    configuration, no card lookup throws, and some card found was updated.
    Every wait lasts between 250 ms and the configured delay (at least
    500 ms); every call asks for known field types, in fill mode or for one
    single field in overwrite mode; the body makes one to three
    [generateCardFields] calls for each card found, so at most three times
    as many calls as card ids in all. *)
Theorem autoGenerateForCards_run rawConfig config tagsRead cardIds found call :
  let r := autoGenerateForCards rawConfig config tagsRead cardIds found call in
  let requestDelay := match rawConfig with Some (_, rd) => rd | None => None end in
  let delay := autoGenerate_delay requestDelay in
  snd r = (match rawConfig with Some (ag, _) => autoGenerate_on ag | None => false end &&
           match config with Some v => v | None => false end && tagsRead &&
           forallb (lookup_ok found) cardIds &&
           existsb (card_updated found call delay) cardIds) /\
  Forall (auto_event_ok delay) (fst r) /\
  (gen_count (fst r) <= 3 * List.length cardIds)%nat /\
  (forall needsName needsDesc c,
     1 <= gen_count (fst (autoCard needsName needsDesc delay c)) <= 3)%nat.
Proof.
  cbv zeta.
  assert (Hd : forall rd, (500 <= autoGenerate_delay rd)%Z)
    by (intros rd; unfold autoGenerate_delay; lia).
  assert (Per : forall rd nn nd c,
            (1 <= gen_count (fst (autoCard nn nd (autoGenerate_delay rd) c)) <= 3)%nat)
    by (intros rd nn nd c; apply (autoCard_events nn nd _ c (Hd rd))).
  unfold autoGenerateForCards.
  destruct rawConfig as [[ag rd]|];
    [|split; [reflexivity|split; [constructor|split; [cbn; lia|apply Per]]]].
  destruct (autoGenerate_on ag);
    [|split; [reflexivity|split; [constructor|split; [cbn; lia|apply Per]]]].
  destruct config as [[|]|];
    [|split; [reflexivity|split; [constructor|split; [cbn; lia|apply Per]]]
     |split; [reflexivity|split; [constructor|split; [cbn; lia|apply Per]]]].
  destruct tagsRead;
    [|split; [reflexivity|split; [constructor|split; [cbn; lia|apply Per]]]].
  destruct (auto_loop_props 0 (List.length cardIds) cardIds found call
              (autoGenerate_delay rd) false (Hd rd)) as [U [F C]].
  destruct (auto_loop 0 (List.length cardIds) cardIds found call (autoGenerate_delay rd) false)
    as [evs h]; cbn [fst snd] in U, F, C |- *.
  split; [|split; [exact F|split; [exact C|apply Per]]].
  rewrite U; cbn [andb]; destruct (forallb (lookup_ok found) cardIds); reflexivity.
Qed.

Lemma last_app_ne {A} (l1 l2 : list A) d :
  l2 <> [] -> last (l1 ++ l2)%list d = last l2 d.
Proof.
  intros Hne; induction l1 as [|x l1 IH]; [reflexivity|].
  cbn [app]; rewrite <- IH.
  destruct (l1 ++ l2)%list eqn:E; [apply app_eq_nil in E; destruct E; contradiction|reflexivity].
Qed.

Lemma auto_loop_last i n cardIds found call d h :
  (500 <= d)%Z -> n = (i + List.length cardIds)%nat -> cardIds <> [] ->
  (forall cid, In cid cardIds -> exists x, found cid = Some (Some x)) ->
  exists tys md, last (fst (auto_loop i n cardIds found call d h)) (AWait 0) = AGen tys md.
Proof.
  intros Hd; revert i h.
  induction cardIds as [|cid rest IH]; intros i h Hn Hne Hall; [contradiction|].
  destruct (Hall cid (or_introl eq_refl)) as [[nn nd] Hf].
  cbn [auto_loop]; rewrite Hf.
  destruct (autoCard_events nn nd d (call cid) Hd) as [_ [_ [tys [md L]]]].
  destruct (autoCard nn nd d (call cid)) as [evs cu]; cbn [fst] in L.
  destruct rest as [|c2 r2].
  - cbn [auto_loop fst]; cbn [List.length] in Hn.
    replace (n - 1)%nat with i by lia; rewrite Nat.ltb_irrefl.
    exists tys, md; rewrite !app_nil_r; exact L.
  - destruct (IH (S i) (h || cu)) as [tys' [md' L']];
      [cbn [List.length] in Hn |- *; lia|discriminate|
       intros c Hc; apply Hall; right; exact Hc|].
    destruct (auto_loop (S i) n (c2 :: r2) found call d (h || cu)) as [evs' h'];
      cbn [fst] in L' |- *.
    exists tys', md'; rewrite app_assoc, last_app_ne; [exact L'|].
    intros E; rewrite E in L'; discriminate.
Qed.

(** When the reads of the configuration succeed with automatic generation
    on, and every card id is looked up without error and found, the events
    of [autoGenerateForCards] end with a [generateCardFields] call: the wait
    between cards is only taken before another card. *)
Theorem autoGenerateForCards_no_trailing_wait requestDelay cardIds found call
    (Hne : cardIds <> [])
    (Hall : forall cid, In cid cardIds -> exists x, found cid = Some (Some x)) :
  exists tys md,
    last (fst (autoGenerateForCards (Some (Some "true", requestDelay)) (Some true) true
                 cardIds found call))
         (AWait 0) = AGen tys md.
Proof.
  unfold autoGenerateForCards; cbn [autoGenerate_on String.eqb].
  pose proof (auto_loop_last 0 (List.length cardIds) cardIds found call
                (autoGenerate_delay requestDelay) false) as L.
  destruct (auto_loop 0 (List.length cardIds) cardIds found call
              (autoGenerate_delay requestDelay) false) as [evs h]; cbn [fst] in L |- *.
  apply L; [unfold autoGenerate_delay; lia|reflexivity|exact Hne|exact Hall].
Qed.

Lemma autoGenerateForCards_no_trailing_wait_witness :
  ([1%Z; 2%Z] <> []) /\
  exists tys md,
    last (fst (autoGenerateForCards (Some (Some "true", None)) (Some true) true [1%Z; 2%Z]
                 (fun _ => Some (Some (false, false))) (fun _ _ => Some true)))
         (AWait 0) = AGen tys md.
Proof.
  assert (Hne : [1%Z; 2%Z] <> []) by discriminate.
  split; [exact Hne|].
  refine (autoGenerateForCards_no_trailing_wait None [1%Z; 2%Z]
            (fun _ => Some (Some (false, false))) (fun _ _ => Some true) Hne _).
  intros cid _; exists (false, false); reflexivity.
Defined.

(** C7 (counterexample). A task that is stopping (after [stop], its
    [runTask] still in flight) does not block [start]: [stop] clears the
    running flag at once, so [start] succeeds and installs a new record and
    abort controller. The old run then keeps reading [this.task] and
    [this.abortController]: it never sees an abort, applies its first window
    (3 cards) to the new record, goes on over all its ten cards, and its
    [finally] clears the new task's running flag, leaving a record of 10
    successes out of a total of 4. *)
Theorem start_during_stopping_corrupts_new_task :
  isRunning manager_A = true /\
  m_inflight (stop manager_A) = true /\
  fst (start (stop manager_A) cardsB ["name"] 5) = inr 4%nat /\
  task_summary restart_first_window = Some (4%nat, 3%nat, 3%nat, true) /\
  task_summary (fst restart_run) = Some (4%nat, 10%nat, 4%nat, false) /\
  m_abort (fst restart_run) = Some false /\
  snd restart_run = 10%nat.
Proof.
  repeat split; vm_compute; reflexivity.
Qed.
